(** * hafas-rest-api-client: the request pipeline of [src/index.js]

    A shallow embedding of [createClient], its internal [request] primitive
    and the eleven endpoint operations, with the JavaScript and library
    functions they call ([Object.fromEntries], object spread,
    [encodeURIComponent], [qs/lib/stringify], [Object.defineProperty]).

    Conventions.
    - A JavaScript string is a [string]: the sequence of its UTF-8 bytes.
    - A JavaScript number is an integer [Z] (ids, counts), of a size whose
      [String(n)] is the plain decimal notation.
    - A plain object is the list of its own enumerable string-keyed
      properties, in own-property order.
    - [new URL] and [content-type]'s [parse] belong to the platform: the
      client is written over a [Platform] record, and [RefPlatform] is one
      concrete instance on which the definitions can be run. *)

From Stdlib Require Import String Ascii List ZArith NArith Lia Bool.
From Stdlib Require Import Numbers.DecimalString.
From Stdlib Require Numbers.DecimalPos.
Import ListNotations.
Open Scope list_scope.
Open Scope string_scope.

(** ** Strings *)

Module Str.

Fixpoint join (sep : string) (l : list string) : string :=
  match l with
  | [] => ""
  | [s] => s
  | s :: r => s ++ sep ++ join sep r
  end.

Definition of_Z (n : Z) : string := NilEmpty.string_of_int (Z.to_int n).

Definition of_N (n : N) : string := NilEmpty.string_of_uint (N.to_uint n).

Definition chars (s : string) : list ascii := list_ascii_of_string s.

(** ASCII lower-casing, as header names are compared. *)
Definition lower_char (c : ascii) : ascii :=
  let n := nat_of_ascii c in
  if andb (65 <=? n)%nat (n <=? 90)%nat then ascii_of_nat (n + 32) else c.

Fixpoint lower (s : string) : string :=
  match s with
  | EmptyString => EmptyString
  | String c r => String (lower_char c) (lower r)
  end.

Fixpoint ends_with (suffix s : string) : bool :=
  if (s =? suffix)%string then true
  else match s with
       | EmptyString => false
       | String _ r => ends_with suffix r
       end.

Definition is_digit (c : ascii) : bool :=
  let n := nat_of_ascii c in andb (48 <=? n)%nat (n <=? 57)%nat.

Definition is_alpha (c : ascii) : bool :=
  let n := nat_of_ascii c in
  orb (andb (65 <=? n)%nat (n <=? 90)%nat) (andb (97 <=? n)%nat (n <=? 122)%nat).

(** The value of a run of decimal digits; [None] on any other character
    and on the empty string. *)
Fixpoint digits_from (acc : N) (s : string) : option N :=
  match s with
  | EmptyString => Some acc
  | String c r =>
      if is_digit c
      then digits_from (acc * 10 + N.of_nat (nat_of_ascii c - 48)) r
      else None
  end.

Definition digits (s : string) : option N :=
  match s with
  | EmptyString => None
  | _ => digits_from 0%N s
  end.

(** Upper-case hexadecimal digit of a value below 16. *)
Definition hex_digit (n : nat) : ascii :=
  if (n <? 10)%nat then ascii_of_nat (48 + n) else ascii_of_nat (55 + n).

Definition hex_value (c : ascii) : option nat :=
  let n := nat_of_ascii c in
  if andb (48 <=? n)%nat (n <=? 57)%nat then Some (n - 48)%nat
  else if andb (65 <=? n)%nat (n <=? 70)%nat then Some (n - 55)%nat
  else if andb (97 <=? n)%nat (n <=? 102)%nat then Some (n - 87)%nat
  else None.

(** [%XX] for one byte. *)
Definition percent (c : ascii) : string :=
  let n := nat_of_ascii c in
  String "%" (String (hex_digit (n / 16)) (String (hex_digit (n mod 16)) "")).

End Str.

(** ** JavaScript values *)

Module JS.

#[local] Set Warnings "-register-all".

Inductive value : Type :=
| VUndefined
| VNull
| VBool (b : bool)
| VNum (n : Z)
| VStr (s : string)
| VObj (props : list (string * value))
| VArr (items : list value).

(** A plain object: own enumerable string-keyed properties in own-property
    order (array-index keys ascending, then the others as inserted). *)
Definition obj : Type := list (string * value).

(** ToBoolean. *)
Definition truthy (v : value) : bool :=
  match v with
  | VUndefined | VNull => false
  | VBool b => b
  | VNum n => negb (n =? 0)%Z
  | VStr s => negb (s =? "")%string
  | VObj _ | VArr _ => true
  end.

Definition typeof (v : value) : string :=
  match v with
  | VUndefined => "undefined"
  | VNull => "object"
  | VBool _ => "boolean"
  | VNum _ => "number"
  | VStr _ => "string"
  | VObj _ | VArr _ => "object"
  end.

(** ToString, as [encodeURIComponent] and string concatenation apply it:
    the string form of a value whose conversion does not throw (see
    [stringable] and [to_string] below for the TypeError).
    [Array.prototype.toString] joins with commas, null and undefined
    elements giving the empty string. *)
Fixpoint ToString (v : value) : string :=
  match v with
  | VUndefined => "undefined"
  | VNull => "null"
  | VBool true => "true"
  | VBool false => "false"
  | VNum n => Str.of_Z n
  | VStr s => s
  | VObj _ => "[object Object]"
  | VArr items =>
      Str.join ","
        (map (fun x => match x with
                       | VUndefined | VNull => ""
                       | _ => ToString x
                       end) items)
  end.

(** [a || b]. *)
Definition or_else (a b : value) : value := if truthy a then a else b.

(** *** Property keys and own-property order *)

(** An array index is a canonical numeric string below 2^32 - 1. *)
Definition array_index (k : string) : option N :=
  match Str.digits k with
  | Some n =>
      if andb (Str.of_N n =? k)%string (n <? 4294967295)%N then Some n else None
  | None => None
  end.

Definition keys (o : obj) : list string := map fst o.

Fixpoint lookup (k : string) (o : obj) : option value :=
  match o with
  | [] => None
  | (k', v) :: r => if (k' =? k)%string then Some v else lookup k r
  end.

Definition has (k : string) (o : obj) : bool :=
  match lookup k o with Some _ => true | None => false end.

(** The values whose conversion to a string does not throw. The conversion
    of an object calls its [toString]: an own [toString] property of a
    decoded or literal object is a value, not a function, and the conversion
    is a TypeError; without one the inherited method gives
    ['[object Object]']. An array converts its elements, null and undefined
    apart. *)
Fixpoint stringable (v : value) : bool :=
  match v with
  | VObj props => negb (has "toString" props)
  | VArr items =>
      forallb (fun x => match x with
                        | VUndefined | VNull => true
                        | _ => stringable x
                        end) items
  | _ => true
  end.

(** ToString with its TypeError ([None]). *)
Definition to_string (v : value) : option string :=
  if stringable v then Some (ToString v) else None.

Fixpoint replace (k : string) (v : value) (o : obj) : obj :=
  match o with
  | [] => []
  | (k', v') :: r =>
      if (k' =? k)%string then (k', v) :: r else (k', v') :: replace k v r
  end.

(** A new array-index key goes before the first key that is not a smaller
    array index. *)
Fixpoint insert_index (n : N) (k : string) (v : value) (o : obj) : obj :=
  match o with
  | [] => [(k, v)]
  | (k', v') :: r =>
      match array_index k' with
      | Some m =>
          if (m <? n)%N then (k', v') :: insert_index n k v r
          else (k, v) :: (k', v') :: r
      | None => (k, v) :: (k', v') :: r
      end
  end.

(** CreateDataProperty on a plain object: an existing key keeps its place
    and takes the new value; a new key is added in own-property order. *)
Definition set (k : string) (v : value) (o : obj) : obj :=
  if has k o then replace k v o
  else match array_index k with
       | Some n => insert_index n k v o
       | None => (o ++ [(k, v)])%list
       end.

(** The properties [src], in order, defined on [target]: what an object
    literal does with its own properties and with a spread [...src]. *)
Definition assign (target : obj) (src : list (string * value)) : obj :=
  fold_left (fun o p => set (fst p) (snd p) o) src target.

Definition Object_fromEntries (entries : list (string * value)) : obj :=
  assign [] entries.

(** [Object.entries] of a plain object. *)
Definition Object_entries (o : obj) : list (string * value) := o.

(** [v[k]] for a key [k] that is neither an array index nor [length]
    (the client reads [id], [msg] and [headers]); [None] is the TypeError
    of reading a property of null or undefined. *)
Definition Get (v : value) (k : string) : option value :=
  match v with
  | VUndefined | VNull => None
  | VObj props =>
      match lookup k props with
      | Some x => Some x
      | None => Some VUndefined
      end
  | _ => Some VUndefined
  end.

(** [o.k] on a plain object. *)
Definition get (o : obj) (k : string) : value :=
  match lookup k o with
  | Some x => x
  | None => VUndefined
  end.

Fixpoint indexed_from {A : Type} (i : N) (l : list A) : list (string * A) :=
  match l with
  | [] => []
  | x :: r => (Str.of_N i, x) :: indexed_from (N.succ i) r
  end.

(** The own enumerable properties an object spread [...v] copies. A string
    is spread by byte, which is by character for ASCII. *)
Definition spread (v : value) : list (string * value) :=
  match v with
  | VObj props => props
  | VArr items => indexed_from 0 items
  | VStr s => indexed_from 0 (map (fun c => VStr (String c "")) (Str.chars s))
  | _ => []
  end.

End JS.

(** ** Percent-encoding *)

Module Uri.

(** The characters [encodeURIComponent] leaves alone: letters, digits and
    [- _ . ! ~ * ' ( )]. *)
Definition uri_unreserved (c : ascii) : bool :=
  orb (orb (Str.is_alpha c) (Str.is_digit c))
      (existsb (Ascii.eqb c)
         ["-"; "_"; "."; "!"; "~"; "*"; "'"; "("; ")"]%char).

(** [encodeURIComponent] on a well-formed string: every byte of the UTF-8
    form outside the unreserved set becomes [%XX]. *)
Fixpoint encodeURIComponent (s : string) : string :=
  match s with
  | EmptyString => EmptyString
  | String c r =>
      (if uri_unreserved c then String c "" else Str.percent c)
        ++ encodeURIComponent r
  end.

(** Percent-decoding of bytes, as [decodeURIComponent] and the
    form-urlencoded parser do it: [%XX] with two hexadecimal digits is one
    byte, anything else stands for itself. *)
Fixpoint percent_decode (s : string) : string :=
  match s with
  | String "%" (String h (String l r as r1) as r2) =>
      match Str.hex_value h, Str.hex_value l with
      | Some a, Some b => String (ascii_of_nat (16 * a + b)) (percent_decode r)
      | _, _ => String "%" (String h (percent_decode r1))
      end
  | String c r => String c (percent_decode r)
  | EmptyString => EmptyString
  end.

End Uri.

(** ** qs/lib/stringify.js, called with [{allowDots: true}] *)

Module Qs.

(** [utils.encode] in the default RFC 3986 format: letters, digits and
    [- . _ ~] are kept, every other byte becomes [%XX]. *)
Definition unreserved (c : ascii) : bool :=
  orb (orb (Str.is_alpha c) (Str.is_digit c))
      (existsb (Ascii.eqb c) ["-"; "."; "_"; "~"]%char).

Fixpoint encode (s : string) : string :=
  match s with
  | EmptyString => EmptyString
  | String c r =>
      (if unreserved c then String c "" else Str.percent c) ++ encode r
  end.

(** The inner [stringify(object, prefix, ...)]: the list of [key=value]
    pairs of one value. null is encoded as the empty string, undefined
    gives nothing, a nested object extends the prefix with [.key]
    (allowDots), an array with [[index]] (arrayFormat 'indices'); key and
    value are both encoded (encodeValuesOnly is off). *)
Fixpoint stringify (prefix : string) (v : JS.value) : list string :=
  match v with
  | JS.VUndefined => []
  | JS.VNull => [encode prefix ++ "=" ++ encode ""]
  | JS.VBool _ | JS.VNum _ | JS.VStr _ =>
      [encode prefix ++ "=" ++ encode (JS.ToString v)]
  | JS.VObj props =>
      (fix over (ps : list (string * JS.value)) : list string :=
         match ps with
         | [] => []
         | (k, x) :: r => (stringify (prefix ++ "." ++ k) x ++ over r)%list
         end) props
  | JS.VArr items =>
      (fix over (i : N) (xs : list JS.value) : list string :=
         match xs with
         | [] => []
         | x :: r =>
             (stringify (prefix ++ "[" ++ Str.of_N i ++ "]") x
                ++ over (N.succ i) r)%list
         end) 0%N items
  end.

(** The values that give exactly one pair, and the text of that pair. *)
Definition is_primitive (v : JS.value) : bool :=
  match v with
  | JS.VNull | JS.VBool _ | JS.VNum _ | JS.VStr _ => true
  | _ => false
  end.

Definition primitive_text (v : JS.value) : string :=
  match v with
  | JS.VNull => ""
  | _ => JS.ToString v
  end.

(** The exported function on a plain object: the pairs of every own key, in
    [Object.keys] order, joined with [&]. *)
Definition stringifyQuery (o : JS.obj) : string :=
  Str.join "&" (flat_map (fun p => stringify (fst p) (snd p)) o).

End Qs.

(** ** Responses, errors and the platform *)

(** A [Headers] object: its (name, value) list. *)
Definition Headers : Type := list (string * string).

(** [headers.get(name)]: names compare case-insensitively, several values are
    joined with a comma and a space, an absent header gives null ([None]). *)
Definition Headers_get (h : Headers) (name : string) : option string :=
  match filter (fun p => (Str.lower (fst p) =? Str.lower name)%string) h with
  | [] => None
  | vs => Some (Str.join ", " (map snd vs))
  end.

(** A fetch [Response]: [json] is the outcome of [response.json()], [None]
    when the body is not JSON and the promise rejects. *)
Record Response : Type := mkResponse {
  status : Z;
  headers : Headers;
  json : option JS.value
}.

(** An error object. [response] is present on ky's HTTPError, [body] is the
    property [request] may add ([None]: the error has no such property). *)
Record Error : Type := mkError {
  name : string;
  message : string;
  response : option Response;
  body : option JS.value
}.

Definition TypeError (msg : string) : Error :=
  {| name := "TypeError"; message := msg; response := None; body := None |}.

Definition SyntaxError (msg : string) : Error :=
  {| name := "SyntaxError"; message := msg; response := None; body := None |}.

(** A [URL] object, as far as [request] reads it. *)
Record URL : Type := mkURL {
  href : string;
  searchParams : list (string * string)
}.

(** What the client takes from its environment: [new URL(input)] and
    [new URL(input, base)], which throw on an unparseable input, and
    [parse(header).type] of the content-type package, which throws on an
    invalid media type or parameter ([None]). *)
Record Platform : Type := mkPlatform {
  new_URL : string -> option string -> Error + URL;
  parseContentType : string -> option string
}.

(** The outcome of [await ky.get(...)]. *)
Inductive KyResult : Type :=
| Threw (err : Error)
| Returned (res : Response).

(** An asynchronous computation of the client: settled, or waiting for the
    one network call [ky.get(input, options)]. *)
Inductive Async (A : Type) : Type :=
| Resolve (a : A)
| Reject (e : Error)
| ky_get (input : string) (options : JS.obj) (k : KyResult -> Async A).

Arguments Resolve {A} a.
Arguments Reject {A} e.
Arguments ky_get {A} input options k.

(** The network call a computation is waiting for. *)
Definition issued {A : Type} (p : Async A) : option (string * JS.obj) :=
  match p with
  | ky_get input options _ => Some (input, options)
  | _ => None
  end.

(** Running a computation against a network: the calls made and the
    settlement. *)
Fixpoint run {A : Type} (net : string -> JS.obj -> KyResult) (p : Async A)
  : list (string * JS.obj) * (Error + A) :=
  match p with
  | Resolve a => ([], inr a)
  | Reject e => ([], inl e)
  | ky_get input options k =>
      let (calls, r) := run net (k (net input options)) in
      ((input, options) :: calls, r)
  end.

(** ** The response envelope *)

Inductive Symbol : Type := RESPONSE | HEADERS | SERVER_TIMING | CACHE.

Definition Symbol_eqb (a b : Symbol) : bool :=
  match a, b with
  | RESPONSE, RESPONSE | HEADERS, HEADERS
  | SERVER_TIMING, SERVER_TIMING | CACHE, CACHE => true
  | _, _ => false
  end.

(** The values stored under the four symbols. *)
Inductive Meta : Type :=
| MResponse (res : Response)
| MHeaders (h : Headers)
| MStr (s : string)
| MNull.

Record Descriptor : Type := mkDescriptor {
  value : Meta;
  enumerable : bool;
  writable : bool;
  configurable : bool
}.

(** The decoded body together with its symbol-keyed own properties. *)
Record Envelope : Type := mkEnvelope {
  target : JS.value;
  symbols : list (Symbol * Descriptor)
}.

Definition is_object (v : JS.value) : bool :=
  match v with
  | JS.VObj _ | JS.VArr _ => true
  | _ => false
  end.

Fixpoint symbol_lookup (k : Symbol) (l : list (Symbol * Descriptor))
  : option Descriptor :=
  match l with
  | [] => None
  | (k', d) :: r => if Symbol_eqb k' k then Some d else symbol_lookup k r
  end.

(** [Object.defineProperty(o, k, {value})]: a TypeError on a non-object; a
    new property is neither enumerable, writable nor configurable, so that
    defining the key again with another value is a TypeError. [request]
    defines each symbol once, on a fresh body; the model refuses any second
    definition. *)
Definition Object_defineProperty (o : Envelope) (k : Symbol) (v : Meta)
  : Error + Envelope :=
  if is_object (target o) then
    match symbol_lookup k (symbols o) with
    | None =>
        inr {| target := target o;
               symbols := (symbols o ++ [(k, {| value := v;
                                                enumerable := false;
                                                writable := false;
                                                configurable := false |})])%list |}
    | Some _ => inl (TypeError "Cannot redefine property")
    end
  else inl (TypeError "Object.defineProperty called on non-object").

(** [o[k]] for a symbol [k]; [None] is undefined. *)
Definition read (o : Envelope) (k : Symbol) : option Meta :=
  match symbol_lookup k (symbols o) with
  | Some d => Some (value d)
  | None => None
  end.

(** Own property keys: strings and symbols. *)
Inductive PropertyKey : Type :=
| KString (s : string)
| KSymbol (s : Symbol).

(** [Object.keys] of a decoded body. *)
Definition Object_keys (v : JS.value) : list string :=
  match v with
  | JS.VObj props => JS.keys props
  | JS.VArr items => map fst (JS.indexed_from 0 items)
  | _ => []
  end.

(** The own enumerable keys of an envelope, strings then symbols: what
    [for-in], [Object.keys], [Object.entries] and a spread can see. *)
Definition enumerable_keys (o : Envelope) : list PropertyKey :=
  (map KString (Object_keys (target o))
   ++ map (fun p => KSymbol (fst p))
        (filter (fun p => enumerable (snd p)) (symbols o)))%list.

(** ** JSON.stringify *)

Module JSON.

Definition dquote : ascii := "034"%char.

Definition lower_hex_digit (n : nat) : ascii :=
  if (n <? 10)%nat then ascii_of_nat (48 + n) else ascii_of_nat (87 + n).

Definition escape_char (c : ascii) : string :=
  let n := nat_of_ascii c in
  if (n =? 34)%nat then String "\" (String dquote "")
  else if (n =? 92)%nat then "\\"
  else if (n =? 8)%nat then "\b"
  else if (n =? 9)%nat then "\t"
  else if (n =? 10)%nat then "\n"
  else if (n =? 12)%nat then "\f"
  else if (n =? 13)%nat then "\r"
  else if (n <? 32)%nat
       then "\u00" ++ String (lower_hex_digit (n / 16))
                        (String (lower_hex_digit (n mod 16)) "")
  else String c "".

Fixpoint escape (s : string) : string :=
  match s with
  | EmptyString => EmptyString
  | String c r => escape_char c ++ escape r
  end.

Definition quote (s : string) : string :=
  String dquote (escape s ++ String dquote "").

(** [JSON.stringify(v)]; [None] is undefined. An undefined property is
    left out of an object, an undefined element of an array is null. *)
Fixpoint stringify (v : JS.value) : option string :=
  match v with
  | JS.VUndefined => None
  | JS.VNull => Some "null"
  | JS.VBool true => Some "true"
  | JS.VBool false => Some "false"
  | JS.VNum n => Some (Str.of_Z n)
  | JS.VStr s => Some (quote s)
  | JS.VObj props =>
      Some ("{" ++ Str.join ","
              ((fix over (ps : list (string * JS.value)) : list string :=
                  match ps with
                  | [] => []
                  | (k, x) :: r =>
                      match stringify x with
                      | Some s => (quote k ++ ":" ++ s) :: over r
                      | None => over r
                      end
                  end) props) ++ "}")
  | JS.VArr items =>
      Some ("[" ++ Str.join ","
              (map (fun x => match stringify x with
                             | Some s => s
                             | None => "null"
                             end) items) ++ "]")
  end.

End JSON.

(** [JSON.stringify] of an envelope: symbol-keyed properties are never
    serialised, whatever their descriptor. *)
Definition JSON_stringify (o : Envelope) : option string :=
  JSON.stringify (target o).

(** ** The client *)

(** The closure of [createClient]: what its operations capture. *)
Record Client : Type := mkClient {
  endpoint : string;
  userAgent : JS.value
}.

(** [createClient(endpoint, opt = {})]. [new URL(endpoint)] throws on an
    invalid endpoint; [userAgent] is destructured from the literal
    [{userAgent: 'hafas-rest-api-client'}], [opt] is not read. *)
Definition createClient (P : Platform) (endpoint : string) (opt : JS.obj)
  : Error + Client :=
  match new_URL P endpoint None with
  | inl e => inl e
  | inr _ =>
      inr {| endpoint := endpoint;
             userAgent :=
               JS.get [("userAgent", JS.VStr "hafas-rest-api-client")]
                      "userAgent" |}
  end.

(** The [searchParams] option of [request]: the entries of the resolved URL
    and then those of [query], through [Object.fromEntries], stringified. *)
Definition request_searchParams (url : URL) (query : JS.obj) : string :=
  Qs.stringifyQuery
    (JS.Object_fromEntries
       (map (fun e => (fst e, JS.VStr (snd e))) (searchParams url)
        ++ JS.Object_entries query)%list).

(** The [headers] option: the two defaults, then [opt.headers || {}]. *)
Definition request_headers (c : Client) (opt : JS.obj) : JS.obj :=
  JS.assign
    (JS.assign [] [("Accept", JS.VStr "application/json");
                   ("User-Agent", userAgent c)])
    (JS.spread (JS.or_else (JS.get opt "headers") (JS.VObj []))).

(** The object [cfg] of [request] (lines 45 to 58). *)
Definition request_cfg (c : Client) (url : URL) (query opt : JS.obj) : JS.obj :=
  JS.assign
    (JS.assign
       (JS.assign [] [("mode", JS.VStr "cors");
                      ("redirect", JS.VStr "follow");
                      ("searchParams", JS.VStr (request_searchParams url query))])
       opt)
    [("headers", JS.VObj (request_headers c opt))].

(** The string literal of line 71, byte for byte. *)
Definition separator : string := " â€“ ".

(** The [catch] block of [request] (lines 64 to 76): the error that is
    rethrown. The inner [try] swallows whatever [parseContentType],
    [err.response.json()], the read of [err.body.msg] and the concatenation
    of line 71 throw, keeping the assignments made before. *)
Definition request_catch (P : Platform) (err : Error) : Error :=
  match response err with
  | None => err
  | Some res =>
      match Headers_get (headers res) "content-type" with
      | None => err
      | Some cType =>
          if (cType =? "")%string then err
          else match parseContentType P cType with
               | None => err
               | Some type =>
                   if (type =? "application/json")%string then
                     match json res with
                     | None => err
                     | Some b =>
                         let err1 := {| name := name err;
                                        message := message err;
                                        response := response err;
                                        body := Some b |} in
                         match JS.Get b "msg" with
                         | None => err1
                         | Some msg =>
                             if JS.truthy msg
                             then match JS.to_string msg with
                                  | Some text =>
                                      {| name := name err1;
                                         message := message err1 ++ separator
                                                      ++ text;
                                         response := response err1;
                                         body := body err1 |}
                                  | None => err1
                                  end
                             else err1
                         end
                     end
                   else err
               end
      end
  end.

Definition bind {A B : Type} (x : Error + A) (f : A -> Error + B) : Error + B :=
  match x with
  | inl e => inl e
  | inr a => f a
  end.

Notation "'let*' x := a 'in' b" := (bind a (fun x => b))
  (at level 10, x name, a at level 100, b at level 200, only parsing).

(** [a || null] for a header value. *)
Definition or_null (a : option string) : Meta :=
  match a with
  | Some s => if (s =? "")%string then MNull else MStr s
  | None => MNull
  end.

(** Lines 78 to 87 of [request]: the body is decoded and the four symbols
    are defined on it. *)
Definition request_body (res : Response) : Error + Envelope :=
  match json res with
  | None => inl (SyntaxError "Unexpected token in JSON")
  | Some b =>
      let body := {| target := b; symbols := [] |} in
      let* body := Object_defineProperty body RESPONSE (MResponse res) in
      let* body := Object_defineProperty body HEADERS (MHeaders (headers res)) in
      let* body := Object_defineProperty body SERVER_TIMING
                     (or_null (Headers_get (headers res) "Server-Timing")) in
      let* body := Object_defineProperty body CACHE
                     (or_null (Headers_get (headers res) "X-Cache")) in
      inr body
  end.

Definition settle {A : Type} (x : Error + A) : Async A :=
  match x with
  | inl e => Reject e
  | inr a => Resolve a
  end.

(** [request(path, query = {}, opt = {})]. A failing [new URL(path,
    endpoint)] rejects the promise; the [debug] call of line 63 only logs
    and is left out. *)
Definition request (P : Platform) (c : Client)
  (path : string) (query opt : JS.obj) : Async Envelope :=
  match new_URL P path (Some (endpoint c)) with
  | inl e => Reject e
  | inr url =>
      ky_get (href url) (request_cfg c url query opt)
        (fun r => match r with
                  | Threw err => Reject (request_catch P err)
                  | Returned res => settle (request_body res)
                  end)
  end.

Section Operations.

Context (P : Platform) (c : Client).

Definition locations (query : JS.value) (opt : JS.obj) : Async Envelope :=
  request P c "/locations" (JS.assign (JS.assign [] [("query", query)]) opt) [].

Definition nearby (loc : JS.obj) (opt : JS.obj) : Async Envelope :=
  request P c "/stops/nearby" (JS.assign (JS.assign [] loc) opt) [].

Definition stations (query : JS.value) (opt : JS.obj) : Async Envelope :=
  request P c "/stations" (JS.assign (JS.assign [] opt) [("query", query)]) [].

Definition reachableFrom (loc : JS.obj) (opt : JS.obj) : Async Envelope :=
  request P c "/stops/reachable-from" (JS.assign (JS.assign [] loc) opt) [].

(** In [stop], [_stationBoard], [refreshJourney] and [trip] the call
    [encodeURIComponent(id)] is taken on an id that is [JS.stringable]; on
    another id that call throws a TypeError before [request] is reached. *)
Definition stop (id : JS.value) (opt : JS.obj) : Async Envelope :=
  if negb (JS.truthy id) then Reject (TypeError "invalid id")
  else request P c ("/stops/" ++ Uri.encodeURIComponent (JS.ToString id)) opt [].

(** [stop.id] cannot throw once [stop] is truthy; the [None] branch is the
    TypeError it would be. *)
Definition _stationBoard (type : string) (stop : JS.value) (opt : JS.obj)
  : Async Envelope :=
  if negb (JS.truthy stop) then Reject (TypeError "invalid stop")
  else
    match JS.Get stop "id" with
    | None => Reject (TypeError "Cannot read properties of undefined")
    | Some id =>
        match (if JS.truthy id then inr id
               else if negb (JS.typeof stop =? "string")%string
                    then inl (TypeError "invalid stop")
                    else inr stop) with
        | inl e => Reject e
        | inr stop =>
            request P c
              ("/stops/" ++ Uri.encodeURIComponent (JS.ToString stop)
                 ++ "/departures") opt []
        end
    end.

Definition departures : JS.value -> JS.obj -> Async Envelope :=
  _stationBoard "departures".

Definition arrivals : JS.value -> JS.obj -> Async Envelope :=
  _stationBoard "arrivals".

Definition journeys (from to : JS.value) (opt : JS.obj) : Async Envelope :=
  request P c "/journeys"
    (JS.assign (JS.assign [] [("from", from); ("to", to)]) opt) [].

Definition refreshJourney (ref : JS.value) (opt : JS.obj) : Async Envelope :=
  if negb (JS.truthy ref) then Reject (TypeError "invalid ref")
  else request P c ("/journeys/" ++ Uri.encodeURIComponent (JS.ToString ref)) opt [].

Definition trip (id lineName : JS.value) (opt : JS.obj) : Async Envelope :=
  if negb (JS.truthy id) then Reject (TypeError "invalid id")
  else request P c ("/trips/" ++ Uri.encodeURIComponent (JS.ToString id))
         (JS.assign (JS.assign [] [("lineName", lineName)]) opt) [].

Definition radar (bbox : JS.obj) (opt : JS.obj) : Async Envelope :=
  request P c "/radar" (JS.assign (JS.assign [] bbox) opt) [].

(** A call of one of the eleven operations of the client object. *)
Inductive Call : Type :=
| call_locations (query : JS.value) (opt : JS.obj)
| call_nearby (loc opt : JS.obj)
| call_stations (query : JS.value) (opt : JS.obj)
| call_reachableFrom (loc opt : JS.obj)
| call_stop (id : JS.value) (opt : JS.obj)
| call_departures (stop : JS.value) (opt : JS.obj)
| call_arrivals (stop : JS.value) (opt : JS.obj)
| call_journeys (from to : JS.value) (opt : JS.obj)
| call_refreshJourney (ref : JS.value) (opt : JS.obj)
| call_trip (id lineName : JS.value) (opt : JS.obj)
| call_radar (bbox opt : JS.obj).

Definition invoke (call : Call) : Async Envelope :=
  match call with
  | call_locations query opt => locations query opt
  | call_nearby loc opt => nearby loc opt
  | call_stations query opt => stations query opt
  | call_reachableFrom loc opt => reachableFrom loc opt
  | call_stop id opt => stop id opt
  | call_departures stop opt => departures stop opt
  | call_arrivals stop opt => arrivals stop opt
  | call_journeys from to opt => journeys from to opt
  | call_refreshJourney ref opt => refreshJourney ref opt
  | call_trip id lineName opt => trip id lineName opt
  | call_radar bbox opt => radar bbox opt
  end.

End Operations.

(** ** A reference platform

    One concrete [Platform], to run the client on. Its [new URL] covers http
    and https URLs with a non-empty host of letters, digits, [.], [-] and [:]
    and, against such a base, references that start with [/]; inputs are
    taken to consist of URL code points, so nothing is re-encoded. Its
    content-type parser validates the media type and ignores parameters. *)

Module RefPlatform.

Fixpoint split_first (c : ascii) (s : string) : string * option string :=
  match s with
  | EmptyString => (EmptyString, None)
  | String d r =>
      if Ascii.eqb d c then (EmptyString, Some r)
      else let (a, b) := split_first c r in (String d a, b)
  end.

Fixpoint split_all (c : ascii) (s : string) : list string :=
  match s with
  | EmptyString => [EmptyString]
  | String d r =>
      if Ascii.eqb d c then EmptyString :: split_all c r
      else match split_all c r with
           | [] => [String d EmptyString]
           | x :: xs => String d x :: xs
           end
  end.

Fixpoint plus_to_space (s : string) : string :=
  match s with
  | EmptyString => EmptyString
  | String c r => String (if Ascii.eqb c "+" then " "%char else c) (plus_to_space r)
  end.

Definition form_decode (s : string) : string :=
  Uri.percent_decode (plus_to_space s).

(** The application/x-www-form-urlencoded parser behind
    [url.searchParams]. *)
Definition parse_query (q : string) : list (string * string) :=
  flat_map
    (fun seq =>
       if (seq =? "")%string then []
       else let (n, v) := split_first "=" seq in
            [(form_decode n,
              form_decode (match v with Some x => x | None => "" end))])
    (split_all "&" q).

Definition host_char (c : ascii) : bool :=
  orb (orb (Str.is_alpha c) (Str.is_digit c))
      (existsb (Ascii.eqb c) ["."; "-"; ":"]%char).

Fixpoint span (f : ascii -> bool) (s : string) : string * string :=
  match s with
  | EmptyString => (EmptyString, EmptyString)
  | String c r =>
      if f c then let (a, b) := span f r in (String c a, b)
      else (EmptyString, s)
  end.

Definition strip_prefix (p s : string) : option string :=
  if String.prefix p s
  then Some (substring (String.length p) (String.length s - String.length p) s)
  else None.

(** Origin and remainder of an absolute http(s) URL. *)
Definition absolute (s : string) : option (string * string) :=
  let after scheme :=
    match strip_prefix scheme (Str.lower s) with
    | Some _ =>
        let rest := substring (String.length scheme)
                      (String.length s - String.length scheme) s in
        let (host, tail) := span host_char rest in
        if (host =? "")%string then None
        else match tail with
             | EmptyString => Some (scheme ++ Str.lower host, "/")
             | String c _ =>
                 if Ascii.eqb c "/" then Some (scheme ++ Str.lower host, tail)
                 else if orb (Ascii.eqb c "?") (Ascii.eqb c "#")
                      then Some (scheme ++ Str.lower host, String "/" tail)
                      else None
             end
    | None => None
    end in
  match after "https://" with
  | Some r => Some r
  | None => after "http://"
  end.

Definition make (origin rest : string) : URL :=
  let (before, _) := split_first "#" rest in
  let (_, q) := split_first "?" before in
  {| href := origin ++ rest;
     searchParams := parse_query (match q with Some x => x | None => "" end) |}.

Definition new_URL (input : string) (base : option string) : Error + URL :=
  match absolute input with
  | Some (origin, rest) => inr (make origin rest)
  | None =>
      match base with
      | Some b =>
          match absolute b, input with
          | Some (origin, _), String "/" _ => inr (make origin input)
          | _, _ => inl (TypeError "Invalid URL")
          end
      | None => inl (TypeError "Invalid URL")
      end
  end.

Definition token_char (c : ascii) : bool :=
  orb (orb (Str.is_alpha c) (Str.is_digit c))
      (existsb (Ascii.eqb c)
         ["!"; "#"; "$"; "%"; "&"; "'"; "*"; "+"; "."; "^"; "_"; "`"; "|";
          "~"; "-"]%char).

Definition is_token (s : string) : bool :=
  andb (negb (s =? "")%string) (forallb token_char (Str.chars s)).

Fixpoint trim_left (s : string) : string :=
  match s with
  | String " " r => trim_left r
  | _ => s
  end.

Definition rev_string (s : string) : string :=
  string_of_list_ascii (rev (Str.chars s)).

Definition trim (s : string) : string :=
  rev_string (trim_left (rev_string (trim_left s))).

Definition parseContentType (header : string) : option string :=
  let (t, _) := split_first ";" header in
  let type := trim t in
  match split_first "/" type with
  | (a, Some b) =>
      if andb (is_token a) (is_token b) then Some (Str.lower type) else None
  | (_, None) => None
  end.

Definition platform : Platform :=
  mkPlatform new_URL parseContentType.

End RefPlatform.

(** ** The words of the specification *)

(** The wire query as the specification words it: the entries of the URL and
    then those of the mapping, every entry encoded on its own and none
    merged with another. *)
Definition spec_searchParams (url : URL) (query : JS.obj) : string :=
  Qs.stringifyQuery
    (map (fun e => (fst e, JS.VStr (snd e))) (searchParams url)
     ++ JS.Object_entries query)%list.

(** The suffix the specification appends to the message of a failure: a
    space, an en dash, a space and the msg. *)
Definition spec_suffix (msg : string) : string := " – " ++ msg.

(** An operation as a use of [request]: the same call on every platform. *)
Definition calls_request (c : Client) (call : Call)
  (path : string) (query opt : JS.obj) : Prop :=
  forall P : Platform, invoke P c call = request P c path query opt.

(** An operation that throws before it reaches [request]. *)
Definition throws (c : Client) (call : Call) (e : Error) : Prop :=
  forall P : Platform, invoke P c call = Reject e.

(** The path of an arrivals board. *)
Definition arrivals_path (path : string) : Prop :=
  exists id : string, path = "/stops/" ++ id ++ "/arrivals".

(** A stop argument the station boards take: a string, or an object with a
    truthy [id]. *)
Definition stop_like (stop : JS.value) : bool :=
  match stop with
  | JS.VStr _ => true
  | JS.VObj props => JS.truthy (JS.get props "id")
  | _ => false
  end.

(** The identifier a station board puts into its path. *)
Definition board_id (stop : JS.value) : JS.value :=
  match stop with
  | JS.VObj props => JS.get props "id"
  | _ => stop
  end.

(** The arguments the specification calls invalid: a falsy id or ref, and a
    stop that is falsy or not [stop_like]. *)
Definition invalid_argument (call : Call) : bool :=
  match call with
  | call_stop id _ => negb (JS.truthy id)
  | call_refreshJourney ref _ => negb (JS.truthy ref)
  | call_trip id _ _ => negb (JS.truthy id)
  | call_departures stop _ | call_arrivals stop _ =>
      orb (negb (JS.truthy stop)) (negb (stop_like stop))
  | _ => false
  end.

(** The [opt] argument of a call. *)
Definition opt_of (call : Call) : JS.obj :=
  match call with
  | call_locations _ opt | call_nearby _ opt | call_stations _ opt
  | call_reachableFrom _ opt | call_stop _ opt | call_departures _ opt
  | call_arrivals _ opt | call_journeys _ _ opt | call_refreshJourney _ opt
  | call_trip _ _ opt | call_radar _ opt => opt
  end.

(** The operations that hand [opt] to [request] as the query mapping itself;
    the others spread it into an object literal. *)
Definition opt_is_query (call : Call) : bool :=
  match call with
  | call_stop _ _ | call_departures _ _ | call_arrivals _ _
  | call_refreshJourney _ _ => true
  | _ => false
  end.

(** A key an operation writes after the spread of [opt]. *)
Definition written_after_opt (call : Call) (k : string) : bool :=
  match call with
  | call_stations _ _ => (k =? "query")%string
  | _ => false
  end.

(** The client of the examples: endpoint [https://example.test] on the
    reference platform. *)
Definition example_client : Client :=
  {| endpoint := "https://example.test";
     userAgent := JS.VStr "hafas-rest-api-client" |}.

(** A network that answers every call the same way. *)
Definition always (r : KyResult) : string -> JS.obj -> KyResult :=
  fun _ _ => r.

(** ky's HTTPError for a response. *)
Definition HTTPError (msg : string) (res : Response) : Error :=
  {| name := "HTTPError"; message := msg; response := Some res; body := None |}.

(** A platform that takes every input for a URL and keeps it as the [href]:
    it shows which path an operation resolves. *)
Definition probe : Platform :=
  mkPlatform (fun input _ => inr {| href := input; searchParams := [] |})
             (fun _ => None).

(** The characters of an encoded path segment: unreserved ones and the
    percent sign of an escape (whose two digits are unreserved). *)
Definition segment_char (ch : ascii) : bool :=
  orb (Uri.uri_unreserved ch) (Ascii.eqb ch "%").

(** The path an operation hands to [request], read off the probe platform;
    [None] when the operation throws before it reaches [request]. *)
Definition path_of (c : Client) (call : Call) : option string :=
  option_map fst (issued (invoke probe c call)).

(** * Properties *)

(** ** Strings *)

Module StrFacts.

Lemma append_assoc (a b c : string) : (a ++ b) ++ c = a ++ (b ++ c).
Proof. induction a as [|ch a IH]; simpl; [reflexivity|now rewrite IH]. Qed.

Lemma append_nil_r (a : string) : a ++ "" = a.
Proof. induction a as [|ch a IH]; simpl; [reflexivity|now rewrite IH]. Qed.

Lemma chars_app (a b : string) :
  Str.chars (a ++ b) = (Str.chars a ++ Str.chars b)%list.
Proof. induction a as [|ch a IH]; simpl; [reflexivity|now rewrite IH]. Qed.

Lemma append_inj_l (a b c : string) : a ++ b = a ++ c -> b = c.
Proof.
  induction a as [|ch a IH]; simpl; intros H; [exact H|].
  injection H as H. exact (IH H).
Qed.

(** Two strings that are equal have equal characters, read from the end. *)
Lemma rev_chars_eq (a b : string) :
  a = b -> rev (Str.chars a) = rev (Str.chars b).
Proof. intros ->. reflexivity. Qed.

End StrFacts.

(** ** Own-property order and lookup *)

Module JSFacts.

Import JS.

Lemma lookup_app (k : string) (a b : obj) :
  lookup k (a ++ b)%list =
  match lookup k a with
  | Some v => Some v
  | None => lookup k b
  end.
Proof.
  induction a as [|[k' v'] a IH]; simpl; [reflexivity|].
  destruct (k' =? k)%string; [reflexivity|exact IH].
Qed.

Lemma lookup_none_keys (k : string) (o : obj) :
  lookup k o = None <-> ~ In k (keys o).
Proof.
  induction o as [|[k' v'] o IH]; simpl.
  - split; [intros _ []|reflexivity].
  - destruct (String.eqb_spec k' k) as [E|N].
    + split; [discriminate|]. intros H. exfalso. apply H. left. exact E.
    + rewrite IH. split.
      * intros H [E|I]; [exact (N E)|exact (H I)].
      * intros H I. apply H. right. exact I.
Qed.

Lemma lookup_some_keys (k : string) (o : obj) (v : value) :
  lookup k o = Some v -> In k (keys o).
Proof.
  intros H. destruct (in_dec string_dec k (keys o)) as [I|N]; [exact I|].
  apply lookup_none_keys in N. congruence.
Qed.

Lemma keys_replace (k : string) (v : value) (o : obj) :
  keys (replace k v o) = keys o.
Proof.
  induction o as [|[k' v'] o IH]; simpl; [reflexivity|].
  destruct (k' =? k)%string; simpl; [reflexivity|now rewrite IH].
Qed.

Lemma lookup_replace_same (k : string) (v : value) (o : obj) :
  has k o = true -> lookup k (replace k v o) = Some v.
Proof.
  unfold has. induction o as [|[k' v'] o IH]; simpl; [discriminate|].
  destruct (k' =? k)%string eqn:E; simpl; rewrite E; [reflexivity|exact IH].
Qed.

Lemma lookup_replace_other (k k' : string) (v : value) (o : obj) :
  k' <> k -> lookup k' (replace k v o) = lookup k' o.
Proof.
  intros N. induction o as [|[k0 v0] o IH]; simpl; [reflexivity|].
  destruct (String.eqb_spec k0 k) as [E|E]; simpl.
  - subst k0. destruct (String.eqb_spec k k'); [congruence|reflexivity].
  - destruct (k0 =? k')%string; [reflexivity|exact IH].
Qed.

Lemma lookup_insert_index (n : N) (k k' : string) (v : value) (o : obj) :
  lookup k o = None ->
  lookup k' (insert_index n k v o) =
  if (k =? k')%string then Some v else lookup k' o.
Proof.
  induction o as [|[k0 v0] o IH]; simpl; intros H.
  - reflexivity.
  - destruct (String.eqb_spec k0 k) as [E|E]; [discriminate|].
    destruct (array_index k0) as [m|]; [destruct (m <? n)%N|]; simpl;
      try reflexivity.
    rewrite (IH H).
    destruct (String.eqb_spec k0 k') as [E1|E1];
      destruct (String.eqb_spec k k') as [E2|E2]; congruence.
Qed.

Lemma keys_insert_index (n : N) (k k' : string) (v : value) (o : obj) :
  In k' (keys (insert_index n k v o)) <-> k' = k \/ In k' (keys o).
Proof.
  induction o as [|[k0 v0] o IH]; simpl.
  - intuition congruence.
  - destruct (array_index k0) as [m|]; [destruct (m <? n)%N|]; simpl;
      try rewrite IH; intuition congruence.
Qed.

Lemma NoDup_insert_index (n : N) (k : string) (v : value) (o : obj) :
  ~ In k (keys o) -> NoDup (keys o) -> NoDup (keys (insert_index n k v o)).
Proof.
  induction o as [|[k0 v0] o IH]; simpl; intros NI ND.
  - constructor; [intros []|constructor].
  - inversion ND as [|? ? N0 ND0]; subst.
    destruct (array_index k0) as [m|]; [destruct (m <? n)%N|]; simpl.
    + constructor.
      * rewrite keys_insert_index. intros [E|I]; [apply NI; left; congruence|exact (N0 I)].
      * apply IH; [intros I; apply NI; right; exact I|exact ND0].
    + constructor; [exact NI|exact ND].
    + constructor; [exact NI|exact ND].
Qed.

Lemma lookup_set (k k' : string) (v : value) (o : obj) :
  lookup k' (set k v o) = if (k =? k')%string then Some v else lookup k' o.
Proof.
  unfold set. destruct (has k o) eqn:H.
  - destruct (String.eqb_spec k k') as [E|E].
    + subst k'. apply lookup_replace_same. exact H.
    + apply lookup_replace_other. congruence.
  - assert (L : lookup k o = None).
    { unfold has in H. destruct (lookup k o); [discriminate|reflexivity]. }
    destruct (array_index k) as [n|].
    + apply lookup_insert_index. exact L.
    + rewrite lookup_app. simpl. destruct (lookup k' o) eqn:L'.
      * destruct (String.eqb_spec k k') as [E|E]; [congruence|reflexivity].
      * reflexivity.
Qed.

Lemma keys_set (k k' : string) (v : value) (o : obj) :
  In k' (keys (set k v o)) <-> k' = k \/ In k' (keys o).
Proof.
  unfold set. destruct (has k o) eqn:H.
  - rewrite keys_replace. split; [tauto|]. intros [E|I]; [|exact I].
    subst k'. unfold has in H. destruct (lookup k o) eqn:L; [|discriminate].
    eapply lookup_some_keys. exact L.
  - destruct (array_index k) as [n|].
    + apply keys_insert_index.
    + unfold keys. rewrite map_app, in_app_iff. simpl. intuition congruence.
Qed.

Lemma NoDup_set (k : string) (v : value) (o : obj) :
  NoDup (keys o) -> NoDup (keys (set k v o)).
Proof.
  intros ND. unfold set. destruct (has k o) eqn:H.
  - rewrite keys_replace. exact ND.
  - assert (NI : ~ In k (keys o)).
    { apply lookup_none_keys. unfold has in H.
      destruct (lookup k o); [discriminate|reflexivity]. }
    destruct (array_index k) as [n|].
    + apply NoDup_insert_index; assumption.
    + unfold keys. rewrite map_app. simpl.
      apply NoDup_app; [exact ND|repeat constructor; intros []|].
      intros x I [E|[]]. subst x. exact (NI I).
Qed.

(** After [assign], a key holds its last value in [src], and else what the
    target held. *)
Lemma lookup_assign (k : string) (src : list (string * value)) :
  forall o : obj,
    lookup k (assign o src) =
    match lookup k (rev src) with
    | Some v => Some v
    | None => lookup k o
    end.
Proof.
  unfold assign. induction src as [|[k0 v0] src IH]; intros o; simpl.
  - reflexivity.
  - rewrite IH, lookup_app. destruct (lookup k (rev src)); [reflexivity|].
    simpl. rewrite lookup_set. destruct (k0 =? k)%string; reflexivity.
Qed.

Lemma keys_assign (k : string) (src : list (string * value)) :
  forall o : obj,
    In k (keys (assign o src)) <-> In k (keys o) \/ In k (keys src).
Proof.
  unfold assign. induction src as [|[k0 v0] src IH]; intros o; simpl.
  - tauto.
  - rewrite IH, keys_set. simpl. intuition congruence.
Qed.

Lemma NoDup_assign (src : list (string * value)) :
  forall o : obj, NoDup (keys o) -> NoDup (keys (assign o src)).
Proof.
  unfold assign. induction src as [|[k0 v0] src IH]; intros o ND; simpl.
  - exact ND.
  - apply IH. apply NoDup_set. exact ND.
Qed.

(** Entries with pairwise different keys, none an array index, are appended
    as they come. *)
Lemma assign_fresh (src : list (string * value)) :
  forall o : obj,
    NoDup (keys (o ++ src)%list) ->
    Forall (fun k => array_index k = None) (keys src) ->
    assign o src = (o ++ src)%list.
Proof.
  unfold assign. induction src as [|[k0 v0] src IH]; intros o ND NI; simpl.
  - now rewrite app_nil_r.
  - inversion NI as [|? ? I0 NI0]; subst. simpl in I0.
    assert (F : ~ In k0 (keys o)).
    { unfold keys in ND. rewrite map_app in ND. simpl in ND.
      apply NoDup_remove_2 in ND. intros I. apply ND.
      apply in_or_app. left. exact I. }
    assert (S : set k0 v0 o = (o ++ [(k0, v0)])%list).
    { unfold set, has. apply lookup_none_keys in F. rewrite F, I0. reflexivity. }
    rewrite S, IH.
    + now rewrite <- app_assoc.
    + rewrite <- app_assoc. exact ND.
    + exact NI0.
Qed.

Lemma get_lookup (o : obj) (k : string) (v : value) :
  lookup k o = Some v -> get o k = v.
Proof. unfold get. intros ->. reflexivity. Qed.

End JSFacts.

(** ** The query string *)

Module QsFacts.

Lemma stringify_object (prefix : string) (props : list (string * JS.value)) :
  Qs.stringify prefix (JS.VObj props) =
  flat_map (fun p => Qs.stringify (prefix ++ "." ++ fst p) (snd p)) props.
Proof.
  simpl. induction props as [|[k x] r IH]; [reflexivity|].
  simpl. now rewrite IH.
Qed.

Lemma stringify_primitive (prefix : string) (v : JS.value) :
  Qs.is_primitive v = true ->
  Qs.stringify prefix v =
  [Qs.encode prefix ++ "=" ++ Qs.encode (Qs.primitive_text v)].
Proof. destruct v; simpl; try discriminate; reflexivity. Qed.

Lemma stringifyQuery_primitives (o : JS.obj) :
  Forall (fun p => Qs.is_primitive (snd p) = true) o ->
  Qs.stringifyQuery o =
  Str.join "&"
    (map (fun p => Qs.encode (fst p) ++ "=" ++ Qs.encode (Qs.primitive_text (snd p)))
       o).
Proof.
  unfold Qs.stringifyQuery. intros F. f_equal.
  induction F as [|[k v] o Hv _ IH]; [reflexivity|].
  simpl flat_map. simpl map. rewrite IH.
  rewrite (stringify_primitive k v Hv). reflexivity.
Qed.

End QsFacts.

Lemma lookup_rev_none (k : string) (o : JS.obj) :
  JS.lookup k o = None -> JS.lookup k (rev o) = None.
Proof.
  rewrite !JSFacts.lookup_none_keys. unfold JS.keys.
  rewrite map_rev. intros H I. apply H. apply in_rev. exact I.
Qed.

Lemma has_false_lookup (k : string) (o : JS.obj) :
  JS.has k o = false -> JS.lookup k o = None.
Proof. unfold JS.has. destruct (JS.lookup k o); [discriminate|reflexivity]. Qed.

Lemma issued_request (P : Platform) (c : Client) (path : string)
  (query opt : JS.obj) (url : URL) :
  new_URL P path (Some (endpoint c)) = inr url ->
  issued (request P c path query opt)
  = Some (href url, request_cfg c url query opt).
Proof. intros H. unfold request. rewrite H. reflexivity. Qed.

Lemma cfg_searchParams (c : Client) (url : URL) (query opt : JS.obj) :
  JS.has "searchParams" opt = false ->
  JS.get (request_cfg c url query opt) "searchParams"
  = JS.VStr (request_searchParams url query).
Proof.
  intros H. apply JSFacts.get_lookup. unfold request_cfg.
  rewrite JSFacts.lookup_assign. cbn [rev app JS.lookup String.eqb Ascii.eqb Bool.eqb].
  rewrite JSFacts.lookup_assign, (lookup_rev_none _ _ (has_false_lookup _ _ H)).
  rewrite JSFacts.lookup_assign. reflexivity.
Qed.

(** C1 (amended). [request] takes the entries of the resolved URL, in their
    order, followed by the entries of [query], and makes one object of them
    with [Object.fromEntries] before encoding. The object has every key of
    both sources, each once: a key holds the value of its last entry; when
    no key is repeated and none is an array index, the object is the
    concatenation itself, in concatenation order. The wire query is the
    encoding of that object: a nested object is flattened to dotted keys
    ([a.b=1]) and a mapping of primitive values gives one [key=value] pair
    per key, in order. *)
Theorem request_query_merge (P : Platform) (c : Client) (path : string)
  (query opt : JS.obj) (url : URL) :
  new_URL P path (Some (endpoint c)) = inr url ->
  JS.has "searchParams" opt = false ->
  let entries :=
    (map (fun e => (fst e, JS.VStr (snd e))) (searchParams url)
     ++ JS.Object_entries query)%list in
  let merged := JS.Object_fromEntries entries in
  (exists cfg : JS.obj,
      issued (request P c path query opt) = Some (href url, cfg)
      /\ JS.get cfg "searchParams" = JS.VStr (Qs.stringifyQuery merged))
  /\ NoDup (JS.keys merged)
  /\ (forall k, In k (JS.keys merged) <-> In k (JS.keys entries))
  /\ (forall k, JS.lookup k merged = JS.lookup k (rev entries))
  /\ (NoDup (JS.keys entries) ->
      Forall (fun k => JS.array_index k = None) (JS.keys entries) ->
      merged = entries)
  /\ (Forall (fun p => Qs.is_primitive (snd p) = true) merged ->
      Qs.stringifyQuery merged =
      Str.join "&"
        (map (fun p => Qs.encode (fst p) ++ "="
                         ++ Qs.encode (Qs.primitive_text (snd p))) merged))
  /\ (forall k props,
        Qs.stringify k (JS.VObj props) =
        flat_map (fun p => Qs.stringify (k ++ "." ++ fst p) (snd p)) props)
  /\ Qs.stringifyQuery [("a", JS.VObj [("b", JS.VNum 1)])] = "a.b=1".
Proof.
  intros Hurl Hopt entries merged.
  split; [|split; [|split; [|split; [|split; [|split; [|split]]]]]].
  - exists (request_cfg c url query opt). split.
    + apply issued_request. exact Hurl.
    + apply cfg_searchParams. exact Hopt.
  - apply JSFacts.NoDup_assign. constructor.
  - intros k. unfold merged, JS.Object_fromEntries.
    rewrite JSFacts.keys_assign. simpl. tauto.
  - intros k. unfold merged, JS.Object_fromEntries.
    rewrite JSFacts.lookup_assign. destruct (JS.lookup k (rev entries)); reflexivity.
  - intros ND NI. apply (JSFacts.assign_fresh entries []); assumption.
  - apply QsFacts.stringifyQuery_primitives.
  - apply QsFacts.stringify_object.
  - reflexivity.
Qed.

Lemma request_query_merge_witness :
  new_URL RefPlatform.platform "/x?a=1" (Some (endpoint example_client))
  = inr {| href := "https://example.test/x?a=1"; searchParams := [("a", "1")] |}
  /\ JS.has "searchParams" [] = false
  /\ exists cfg : JS.obj,
       issued (request RefPlatform.platform example_client "/x?a=1"
                 [("b", JS.VObj [("c", JS.VNum 2)])] [])
       = Some ("https://example.test/x?a=1", cfg)
       /\ JS.get cfg "searchParams" = JS.VStr "a=1&b.c=2".
Proof.
  split; [reflexivity|]. split; [reflexivity|].
  exact (proj1 (request_query_merge RefPlatform.platform example_client "/x?a=1"
                  [("b", JS.VObj [("c", JS.VNum 2)])] []
                  {| href := "https://example.test/x?a=1";
                     searchParams := [("a", "1")] |}
                  eq_refl eq_refl)).
Defined.

(** C1, as the specification words it, fails: with [a=1&b=2] in the path and
    [{a: '3'}] as the query the two entries of [a] are merged before the
    encoder sees them, and [a] keeps the place of its first entry; and an
    array-index key such as [2] moves in front of the keys before it. *)
Lemma request_query_merge_counterexample :
  let url := {| href := "https://example.test/x?a=1&b=2";
                searchParams := [("a", "1"); ("b", "2")] |} in
  let query := [("a", JS.VStr "3")] in
  new_URL RefPlatform.platform "/x?a=1&b=2" (Some (endpoint example_client))
  = inr url
  /\ issued (request RefPlatform.platform example_client "/x?a=1&b=2" query [])
     = Some ("https://example.test/x?a=1&b=2",
             [("mode", JS.VStr "cors"); ("redirect", JS.VStr "follow");
              ("searchParams", JS.VStr "a=3&b=2");
              ("headers", JS.VObj [("Accept", JS.VStr "application/json");
                                   ("User-Agent", JS.VStr "hafas-rest-api-client")])])
  /\ spec_searchParams url query = "a=1&b=2&a=3"
  /\ (request_searchParams url query =? spec_searchParams url query)%string = false
  /\ option_map (fun p => JS.get (snd p) "searchParams")
       (issued (request RefPlatform.platform example_client "/x?b=1&2=3" [] []))
     = Some (JS.VStr "2=3&b=1").
Proof. repeat split. Qed.

(** ** Failures *)

Lemma ends_with_refl (s : string) : Str.ends_with s s = true.
Proof. destruct s; simpl; [reflexivity|]. now rewrite Ascii.eqb_refl, String.eqb_refl. Qed.

Lemma ends_with_app (a s : string) : Str.ends_with s (a ++ s) = true.
Proof.
  induction a as [|ch a IH].
  - apply ends_with_refl.
  - change (Str.ends_with s (String ch a ++ s))
      with (if (String ch (a ++ s) =? s)%string then true
            else Str.ends_with s (a ++ s)).
    rewrite IH. destruct (String ch (a ++ s) =? s)%string; reflexivity.
Qed.

Lemma run_request_threw (P : Platform) (c : Client) (path : string)
  (query opt : JS.obj) (url : URL) (err : Error) :
  new_URL P path (Some (endpoint c)) = inr url ->
  run (always (Threw err)) (request P c path query opt)
  = ([(href url, request_cfg c url query opt)], inl (request_catch P err)).
Proof. intros H. unfold request. rewrite H. reflexivity. Qed.

Lemma catch_keeps (P : Platform) (err : Error) :
  name (request_catch P err) = name err
  /\ response (request_catch P err) = response err.
Proof.
  unfold request_catch.
  destruct (response err) as [res|] eqn:R; [|now rewrite R].
  destruct (Headers_get (headers res) "content-type") as [cType|]; [|now rewrite R].
  destruct (cType =? "")%string; [now rewrite R|].
  destruct (parseContentType P cType) as [type|]; [|now rewrite R].
  destruct (type =? "application/json")%string; [|now rewrite R].
  destruct (json res) as [b|]; [|now rewrite R].
  destruct (JS.Get b "msg") as [msg|];
    [destruct (JS.truthy msg); [destruct (JS.to_string msg)|]|];
    simpl; now rewrite ?R.
Qed.

(** X13. A failed call of [ky.get] is rethrown, never swallowed: the error
    raised has the name and the response of the one caught. When the
    failure response has a non-empty content-type whose parsed type is
    [application/json] and its body parses, the error carries the parsed
    body, and its message is extended by the literal of line 71 and the
    string form of the body's [msg] exactly when that [msg] is truthy and
    its conversion to a string does not throw; a falsy, missing or
    unconvertible [msg] leaves the message as it was. Without a response,
    without a content-type, with another media type, and when the
    content-type or the body does not parse, the error is raised
    unchanged. *)
Theorem request_failure (P : Platform) (c : Client) (path : string)
  (query opt : JS.obj) (url : URL) (err : Error) :
  new_URL P path (Some (endpoint c)) = inr url ->
  let raised := request_catch P err in
  run (always (Threw err)) (request P c path query opt)
  = ([(href url, request_cfg c url query opt)], inl raised)
  /\ name raised = name err
  /\ response raised = response err
  /\ (forall res cType b,
        response err = Some res ->
        Headers_get (headers res) "content-type" = Some cType ->
        cType <> "" ->
        parseContentType P cType = Some "application/json" ->
        json res = Some b ->
        body raised = Some b
        /\ (forall msg text,
              JS.Get b "msg" = Some msg -> JS.truthy msg = true ->
              JS.to_string msg = Some text ->
              message raised = message err ++ separator ++ text
              /\ Str.ends_with text (message raised) = true)
        /\ (forall msg,
              JS.Get b "msg" = Some msg -> JS.truthy msg = true ->
              JS.to_string msg = None ->
              message raised = message err)
        /\ (forall msg, JS.Get b "msg" = Some msg -> JS.truthy msg = false ->
              message raised = message err)
        /\ (JS.Get b "msg" = None -> message raised = message err))
  /\ (response err = None -> raised = err)
  /\ (forall res,
        response err = Some res ->
        Headers_get (headers res) "content-type" = None -> raised = err)
  /\ (forall res cType type,
        response err = Some res ->
        Headers_get (headers res) "content-type" = Some cType ->
        parseContentType P cType = Some type ->
        type <> "application/json" -> raised = err)
  /\ (forall res cType,
        response err = Some res ->
        Headers_get (headers res) "content-type" = Some cType ->
        parseContentType P cType = None -> raised = err)
  /\ (forall res, response err = Some res -> json res = None -> raised = err).
Proof.
  intros Hurl raised.
  split; [apply run_request_threw; exact Hurl|].
  split; [apply catch_keeps|]. split; [apply catch_keeps|].
  unfold raised, request_catch.
  split; [|split; [|split; [|split; [|split]]]].
  - intros res cType b -> -> NE -> ->.
    apply String.eqb_neq in NE. rewrite NE. rewrite String.eqb_refl.
    split; [|split; [|split; [|split]]].
    + destruct (JS.Get b "msg") as [msg|];
        [destruct (JS.truthy msg); [destruct (JS.to_string msg)|]|];
        reflexivity.
    + intros msg text -> -> ->. cbn [message]. split; [reflexivity|].
      rewrite <- StrFacts.append_assoc. apply ends_with_app.
    + intros msg -> -> ->. reflexivity.
    + intros msg -> ->. reflexivity.
    + intros ->. reflexivity.
  - intros ->. reflexivity.
  - intros res -> ->. reflexivity.
  - intros res cType type -> -> -> NE.
    apply String.eqb_neq in NE. rewrite NE.
    destruct (cType =? "")%string; reflexivity.
  - intros res cType -> -> ->. destruct (cType =? "")%string; reflexivity.
  - intros res -> ->.
    destruct (Headers_get (headers res) "content-type") as [cType|]; [|reflexivity].
    destruct (cType =? "")%string; [reflexivity|].
    destruct (parseContentType P cType) as [type|]; [|reflexivity].
    destruct (type =? "application/json")%string; reflexivity.
Qed.

Lemma request_failure_witness :
  let res := {| status := 500;
                headers := [("Content-Type", "application/json")];
                json := Some (JS.VObj [("msg", JS.VStr "not found")]) |} in
  new_URL RefPlatform.platform "/stops/1" (Some (endpoint example_client))
  = inr {| href := "https://example.test/stops/1"; searchParams := [] |}
  /\ snd (run (always (Threw (HTTPError "Request failed with status code 500" res)))
            (request RefPlatform.platform example_client "/stops/1" [] []))
     = inl {| name := "HTTPError";
              message := "Request failed with status code 500" ++ separator
                           ++ "not found";
              response := Some res;
              body := Some (JS.VObj [("msg", JS.VStr "not found")]) |}.
Proof.
  split; [reflexivity|].
  exact (f_equal snd
           (proj1 (request_failure RefPlatform.platform example_client "/stops/1"
                     [] [] {| href := "https://example.test/stops/1";
                              searchParams := [] |}
                     (HTTPError "Request failed with status code 500"
                        {| status := 500;
                           headers := [("Content-Type", "application/json")];
                           json := Some (JS.VObj [("msg", JS.VStr "not found")]) |})
                     eq_refl))).
Defined.

(** A failure body whose [msg] is the empty string leaves the message
    without any suffix, and so does one whose [msg] is an object with a
    [toString] field: the concatenation throws and the throw is swallowed,
    the body staying attached. *)
Example request_failure_unextended :
  let raised b :=
    snd (run (always (Threw (HTTPError "Request failed with status code 500"
                               {| status := 500;
                                  headers := [("content-type", "application/json")];
                                  json := Some b |})))
           (request RefPlatform.platform example_client "/stops/1" [] [])) in
  let kept b :=
    inl {| name := "HTTPError";
           message := "Request failed with status code 500";
           response := Some {| status := 500;
                               headers := [("content-type", "application/json")];
                               json := Some b |};
           body := Some b |} in
  raised (JS.VObj [("msg", JS.VStr "")]) = kept (JS.VObj [("msg", JS.VStr "")])
  /\ raised (JS.VObj [("msg", JS.VObj [("toString", JS.VNum 1)])])
     = kept (JS.VObj [("msg", JS.VObj [("toString", JS.VNum 1)])])
  /\ Str.ends_with (spec_suffix "") "Request failed with status code 500" = false.
Proof. repeat split. Qed.

(** C2 (defect of the code). On a 500 response with content-type
    [application/json] and the body [{"msg": "not found"}] the error raised
    carries the parsed body, and its message is the original one followed by
    the literal of line 71 and [not found]. That literal is not the space,
    en dash, space of the specification, so the message does not end with
    the specified suffix. *)
Theorem request_failure_separator :
  let b := JS.VObj [("msg", JS.VStr "not found")] in
  let res := {| status := 500;
                headers := [("content-type", "application/json")];
                json := Some b |} in
  let err := HTTPError "Request failed with status code 500" res in
  Headers_get (headers res) "content-type" = Some "application/json"
  /\ parseContentType RefPlatform.platform "application/json"
     = Some "application/json"
  /\ run (always (Threw err))
       (request RefPlatform.platform example_client "/stops/1" [] [])
     = ([("https://example.test/stops/1",
          request_cfg example_client
            {| href := "https://example.test/stops/1"; searchParams := [] |} [] [])],
        inl {| name := "HTTPError";
               message := "Request failed with status code 500 â€“ not found";
               response := Some res;
               body := Some b |})
  /\ Str.ends_with (spec_suffix "not found")
       "Request failed with status code 500 â€“ not found" = false
  /\ (separator =? " – ")%string = false
  /\ Str.ends_with (separator ++ "not found")
       "Request failed with status code 500 â€“ not found" = true.
Proof. repeat split. Qed.

(** ** Successes *)

Lemma run_request_returned (P : Platform) (c : Client) (path : string)
  (query opt : JS.obj) (url : URL) (res : Response) :
  new_URL P path (Some (endpoint c)) = inr url ->
  run (always (Returned res)) (request P c path query opt)
  = ([(href url, request_cfg c url query opt)],
     match request_body res with
     | inl e => inl e
     | inr env => inr env
     end).
Proof.
  intros H. unfold request. rewrite H. simpl. unfold always.
  destruct (request_body res); reflexivity.
Qed.

(** C3 (amended). When the body of a successful response decodes to an
    object or an array, [request] resolves with that body: the four symbols
    read the response, its headers, and the Server-Timing and X-Cache
    values, null standing for an absent or empty header; the four
    properties are not enumerable, so the enumerable keys are those of the
    body and [JSON.stringify] gives the text of the body alone. *)
Theorem request_success (P : Platform) (c : Client) (path : string)
  (query opt : JS.obj) (url : URL) (res : Response) (b : JS.value) :
  new_URL P path (Some (endpoint c)) = inr url ->
  json res = Some b ->
  is_object b = true ->
  exists env : Envelope,
    run (always (Returned res)) (request P c path query opt)
    = ([(href url, request_cfg c url query opt)], inr env)
    /\ target env = b
    /\ read env RESPONSE = Some (MResponse res)
    /\ read env HEADERS = Some (MHeaders (headers res))
    /\ read env SERVER_TIMING
       = Some (or_null (Headers_get (headers res) "Server-Timing"))
    /\ read env CACHE = Some (or_null (Headers_get (headers res) "X-Cache"))
    /\ (forall h v, Headers_get (headers res) h = Some v -> v <> "" ->
          or_null (Headers_get (headers res) h) = MStr v)
    /\ (forall h, Headers_get (headers res) h = None
                  \/ Headers_get (headers res) h = Some "" ->
          or_null (Headers_get (headers res) h) = MNull)
    /\ Forall (fun p => enumerable (snd p) = false) (symbols env)
    /\ enumerable_keys env = map KString (Object_keys b)
    /\ JSON_stringify env = JSON.stringify b.
Proof.
  intros Hurl Hjson Hobj.
  rewrite (run_request_returned P c path query opt url res Hurl).
  unfold request_body, Object_defineProperty, bind. rewrite Hjson. simpl.
  repeat (rewrite Hobj; simpl).
  eexists. split; [reflexivity|]. simpl.
  repeat split.
  - intros h v -> NE. simpl. apply String.eqb_neq in NE. now rewrite NE.
  - intros h [-> | ->]; reflexivity.
  - repeat constructor.
  - unfold enumerable_keys. simpl. now rewrite app_nil_r.
Qed.

Lemma request_success_witness :
  let b := JS.VObj [("id", JS.VStr "900000003201"); ("name", JS.VStr "X")] in
  let res := {| status := 200; headers := [("X-Cache", "HIT")]; json := Some b |} in
  new_URL RefPlatform.platform "/stops/900000003201"
    (Some (endpoint example_client))
  = inr {| href := "https://example.test/stops/900000003201"; searchParams := [] |}
  /\ json res = Some b
  /\ is_object b = true
  /\ exists env : Envelope,
       snd (run (always (Returned res))
              (request RefPlatform.platform example_client
                 "/stops/900000003201" [] [])) = inr env
       /\ target env = b
       /\ read env CACHE = Some (MStr "HIT")
       /\ read env SERVER_TIMING = Some MNull.
Proof.
  split; [reflexivity|]. split; [reflexivity|]. split; [reflexivity|].
  destruct (request_success RefPlatform.platform example_client
              "/stops/900000003201" [] []
              {| href := "https://example.test/stops/900000003201";
                 searchParams := [] |}
              {| status := 200; headers := [("X-Cache", "HIT")];
                 json := Some (JS.VObj [("id", JS.VStr "900000003201");
                                        ("name", JS.VStr "X")]) |}
              (JS.VObj [("id", JS.VStr "900000003201"); ("name", JS.VStr "X")])
              eq_refl eq_refl eq_refl)
    as [env [Hrun [Ht [_ [_ [Hst [Hc _]]]]]]].
  exists env. split; [rewrite Hrun; reflexivity|].
  split; [exact Ht|]. split; [exact Hc|exact Hst].
Defined.

(** C3, as the specification words it, fails twice: a 2xx response whose
    JSON body is the number 3 makes [request] throw instead of returning a
    value equal to the body, and an X-Cache header with the empty value is
    read back as null, not as that value. *)
Lemma request_success_counterexample :
  snd (run (always (Returned {| status := 200; headers := [];
                                json := Some (JS.VNum 3) |}))
         (request RefPlatform.platform example_client "/stops/1" [] []))
  = inl (TypeError "Object.defineProperty called on non-object")
  /\ Headers_get [("X-Cache", "")] "X-Cache" = Some ""
  /\ match request_body {| status := 200; headers := [("X-Cache", "")];
                           json := Some (JS.VObj [("id", JS.VStr "1")]) |} with
     | inr env => read env CACHE
     | inl _ => None
     end = Some MNull.
Proof. repeat split. Qed.

(** ** Percent-encoded path segments *)

Module UriFacts.

Lemma percent_chars (c : ascii) :
  forallb segment_char (Str.chars (Str.percent c)) = true.
Proof. destruct c as [[] [] [] [] [] [] [] []]; reflexivity. Qed.

Lemma encode_chars (s : string) :
  forallb segment_char (Str.chars (Uri.encodeURIComponent s)) = true.
Proof.
  induction s as [|c r IH]; [reflexivity|].
  simpl. rewrite StrFacts.chars_app, forallb_app, IH, andb_true_r.
  destruct (Uri.uri_unreserved c) eqn:U.
  - simpl. unfold segment_char. now rewrite U.
  - apply percent_chars.
Qed.

Lemma encode_no_char (ch : ascii) (s : string) :
  segment_char ch = false ->
  ~ In ch (Str.chars (Uri.encodeURIComponent s)).
Proof.
  intros F I. pose proof (encode_chars s) as H.
  rewrite forallb_forall in H. specialize (H ch I). congruence.
Qed.

Lemma decode_percent (c : ascii) (r : string) :
  Uri.percent_decode (Str.percent c ++ r) = String c (Uri.percent_decode r).
Proof. destruct c as [[] [] [] [] [] [] [] []]; reflexivity. Qed.

Lemma decode_unreserved (c : ascii) (r : string) :
  Uri.uri_unreserved c = true ->
  Uri.percent_decode (String c r) = String c (Uri.percent_decode r).
Proof.
  destruct c as [[] [] [] [] [] [] [] []]; intros U;
    try reflexivity; discriminate U.
Qed.

(** Decoding gives the identifier back. *)
Lemma decode_encode (s : string) :
  Uri.percent_decode (Uri.encodeURIComponent s) = s.
Proof.
  induction s as [|c r IH]; [reflexivity|].
  simpl. destruct (Uri.uri_unreserved c) eqn:U.
  - simpl append. rewrite (decode_unreserved c _ U), IH. reflexivity.
  - rewrite decode_percent, IH. reflexivity.
Qed.

End UriFacts.

(** ** The operations as uses of [request] *)



Ltac by_last_chars H :=
  apply StrFacts.rev_chars_eq in H;
  rewrite ?StrFacts.chars_app, ?rev_app_distr in H;
  unfold Str.chars in H; simpl in H; discriminate H.

Lemma literal_not_arrivals :
  ~ arrivals_path "/locations" /\ ~ arrivals_path "/stops/nearby"
  /\ ~ arrivals_path "/stations" /\ ~ arrivals_path "/stops/reachable-from"
  /\ ~ arrivals_path "/journeys" /\ ~ arrivals_path "/radar".
Proof.
  repeat split; intros [id H]; simpl in H; try discriminate H;
    injection H as H; by_last_chars H.
Qed.

Lemma stop_path_not_arrivals (s : string) :
  ~ arrivals_path ("/stops/" ++ Uri.encodeURIComponent s).
Proof.
  intros [id H]. apply (StrFacts.append_inj_l "/stops/") in H.
  apply (UriFacts.encode_no_char "/" s); [reflexivity|].
  rewrite H, StrFacts.chars_app. apply in_or_app. right. left. reflexivity.
Qed.

Lemma board_path_not_arrivals (s : string) :
  ~ arrivals_path ("/stops/" ++ Uri.encodeURIComponent s ++ "/departures").
Proof.
  intros [id H]. apply (StrFacts.append_inj_l "/stops/") in H.
  by_last_chars H.
Qed.

Lemma journey_path_not_arrivals (s : string) :
  ~ arrivals_path ("/journeys/" ++ Uri.encodeURIComponent s).
Proof. intros [id H]. simpl in H. discriminate H. Qed.

Lemma trip_path_not_arrivals (s : string) :
  ~ arrivals_path ("/trips/" ++ Uri.encodeURIComponent s).
Proof. intros [id H]. simpl in H. discriminate H. Qed.

Lemma lookup_spread_last (k : string) (v : JS.value) (first opt : JS.obj) :
  JS.lookup k (rev opt) = Some v ->
  JS.lookup k (JS.assign (JS.assign [] first) opt) = Some v.
Proof. intros H. now rewrite JSFacts.lookup_assign, H. Qed.

Lemma lookup_spread_first (k : string) (v : JS.value) (opt last : JS.obj) :
  JS.lookup k (rev opt) = Some v ->
  JS.lookup k (rev last) = None ->
  JS.lookup k (JS.assign (JS.assign [] opt) last) = Some v.
Proof. intros H N. now rewrite JSFacts.lookup_assign, N, JSFacts.lookup_assign, H. Qed.

Lemma Get_object (props : JS.obj) (k : string) :
  JS.Get (JS.VObj props) k = Some (JS.get props k).
Proof. unfold JS.Get, JS.get. destruct (JS.lookup k props); reflexivity. Qed.

Lemma stationBoard_eq (type : string) (P : Platform) (c : Client)
  (stop : JS.value) (opt : JS.obj) :
  _stationBoard P c type stop opt =
  if andb (JS.truthy stop) (stop_like stop)
  then request P c ("/stops/" ++ Uri.encodeURIComponent (JS.ToString (board_id stop))
                      ++ "/departures") opt []
  else Reject (TypeError "invalid stop").
Proof.
  unfold _stationBoard.
  destruct stop as [| |b|n|s|props|items]; simpl; try reflexivity.
  - destruct b; reflexivity.
  - destruct (n =? 0)%Z; reflexivity.
  - destruct (s =? "")%string; reflexivity.
  - unfold JS.get. destruct (JS.lookup "id" props) as [id|]; [|reflexivity].
    destruct (JS.truthy id); reflexivity.
Qed.

Lemma board_cases (c : Client) (call : Call) (type : string)
  (stop : JS.value) (opt : JS.obj) :
  (forall P, invoke P c call = _stationBoard P c type stop opt) ->
  invalid_argument call = orb (negb (JS.truthy stop)) (negb (stop_like stop)) ->
  opt_is_query call = true ->
  opt_of call = opt ->
  (exists msg : string,
      throws c call (TypeError msg) /\ invalid_argument call = true)
  \/ (exists (path : string) (query : JS.obj),
        calls_request c call path query []
        /\ invalid_argument call = false
        /\ ~ arrivals_path path
        /\ (opt_is_query call = true -> query = opt_of call)
        /\ (opt_is_query call = false ->
            forall k v, JS.lookup k (rev (opt_of call)) = Some v ->
                        written_after_opt call k = false ->
                        JS.lookup k query = Some v)).
Proof.
  intros Hinv Harg Hq Hopt. rewrite Harg, Hq, Hopt, <- negb_andb.
  destruct (andb (JS.truthy stop) (stop_like stop)) eqn:A.
  - right.
    exists ("/stops/" ++ Uri.encodeURIComponent (JS.ToString (board_id stop))
              ++ "/departures"), opt.
    split; [intros P; rewrite Hinv, stationBoard_eq, A; reflexivity|].
    repeat split; try discriminate. apply board_path_not_arrivals.
  - left. exists "invalid stop".
    split; [intros P; rewrite Hinv, stationBoard_eq, A; reflexivity|reflexivity].
Qed.

(** Every call either throws on an argument the specification calls invalid,
    or is one use of [request], with a path that is no arrivals path, a
    query mapping that holds [opt], and no third argument. *)
Lemma invoke_cases (c : Client) (call : Call) :
  (exists msg : string,
      throws c call (TypeError msg) /\ invalid_argument call = true)
  \/ (exists (path : string) (query : JS.obj),
        calls_request c call path query []
        /\ invalid_argument call = false
        /\ ~ arrivals_path path
        /\ (opt_is_query call = true -> query = opt_of call)
        /\ (opt_is_query call = false ->
            forall k v, JS.lookup k (rev (opt_of call)) = Some v ->
                        written_after_opt call k = false ->
                        JS.lookup k query = Some v)).
Proof.
  pose proof literal_not_arrivals as [L1 [L2 [L3 [L4 [L5 L6]]]]].
  destruct call as [query opt|loc opt|query opt|loc opt|id opt|stop opt|stop opt
                   |from to opt|ref opt|id lineName opt|bbox opt].
  - right. eexists _, _. split; [intros P; reflexivity|].
    repeat split; try assumption; try discriminate.
    intros _ k v H _. apply lookup_spread_last. exact H.
  - right. eexists _, _. split; [intros P; reflexivity|].
    repeat split; try assumption; try discriminate.
    intros _ k v H _. apply lookup_spread_last. exact H.
  - right. eexists _, _. split; [intros P; reflexivity|].
    repeat split; try assumption; try discriminate.
    intros _ k v H W. apply lookup_spread_first; [exact H|].
    cbn [written_after_opt] in W. rewrite String.eqb_sym in W.
    cbn [rev app JS.lookup]. now rewrite W.
  - right. eexists _, _. split; [intros P; reflexivity|].
    repeat split; try assumption; try discriminate.
    intros _ k v H _. apply lookup_spread_last. exact H.
  - destruct (JS.truthy id) eqn:T.
    + right. exists ("/stops/" ++ Uri.encodeURIComponent (JS.ToString id)), opt.
      split; [intros P; simpl; unfold stop; now rewrite T|].
      simpl. rewrite T. repeat split; try discriminate.
      apply stop_path_not_arrivals.
    + left. exists "invalid id".
      split; [intros P; simpl; unfold stop; now rewrite T|simpl; now rewrite T].
  - apply (board_cases c _ "departures" stop opt);
      [intros P; reflexivity|reflexivity..].
  - apply (board_cases c _ "arrivals" stop opt);
      [intros P; reflexivity|reflexivity..].
  - right. eexists _, _. split; [intros P; reflexivity|].
    repeat split; try assumption; try discriminate.
    intros _ k v H _. apply lookup_spread_last. exact H.
  - destruct (JS.truthy ref) eqn:T.
    + right. exists ("/journeys/" ++ Uri.encodeURIComponent (JS.ToString ref)), opt.
      split; [intros P; simpl; unfold refreshJourney; now rewrite T|].
      simpl. rewrite T. repeat split; try discriminate.
      apply journey_path_not_arrivals.
    + left. exists "invalid ref".
      split; [intros P; simpl; unfold refreshJourney; now rewrite T
             |simpl; now rewrite T].
  - destruct (JS.truthy id) eqn:T.
    + right. exists ("/trips/" ++ Uri.encodeURIComponent (JS.ToString id)).
      eexists. split; [intros P; simpl; unfold trip; rewrite T; reflexivity|].
      simpl. rewrite T. repeat split; try discriminate.
      * apply trip_path_not_arrivals.
      * intros _ k v H _.
        exact (lookup_spread_last k v [("lineName", lineName)] opt H).
    + left. exists "invalid id".
      split; [intros P; simpl; unfold trip; now rewrite T|simpl; now rewrite T].
  - right. eexists _, _. split; [intros P; reflexivity|].
    repeat split; try assumption; try discriminate.
    intros _ k v H _. apply lookup_spread_last. exact H.
Qed.


(** ** Station boards *)


Example arrivals_example :
  issued (arrivals RefPlatform.platform example_client (JS.VStr "900000003201") [])
  = issued (departures RefPlatform.platform example_client (JS.VStr "900000003201") [])
  /\ option_map fst
       (issued (arrivals RefPlatform.platform example_client
                  (JS.VObj [("id", JS.VStr "a/b")]) []))
     = Some "https://example.test/stops/a%2Fb/departures".
Proof. split; reflexivity. Qed.

(** ** The user agent *)

Lemma issued_invoke (P : Platform) (c : Client) (call : Call)
  (input : string) (cfg : JS.obj) :
  issued (invoke P c call) = Some (input, cfg) ->
  exists (path : string) (query : JS.obj) (url : URL),
    calls_request c call path query []
    /\ new_URL P path (Some (endpoint c)) = inr url
    /\ input = href url
    /\ cfg = request_cfg c url query [].
Proof.
  intros H.
  destruct (invoke_cases c call) as [[msg [Ht _]]|[p [q [Hc _]]]].
  - rewrite (Ht P) in H. discriminate H.
  - exists p, q. rewrite (Hc P) in H. unfold request in H.
    destruct (new_URL P p (Some (endpoint c))) as [e|url] eqn:E;
      [discriminate H|].
    exists url. injection H as <- <-.
    split; [exact Hc|]. split; [reflexivity|]. split; reflexivity.
Qed.

(** C5. Whatever [opt] (and so whatever [userAgent]) is given to
    [createClient], the client's user agent is ['hafas-rest-api-client'],
    and every request an operation issues carries it as its User-Agent
    header, next to the Accept header. *)
Theorem userAgent_is_fixed (P : Platform) (input : string) (opt : JS.obj)
  (c : Client) :
  createClient P input opt = inr c ->
  userAgent c = JS.VStr "hafas-rest-api-client"
  /\ forall (call : Call) (href : string) (cfg : JS.obj),
       issued (invoke P c call) = Some (href, cfg) ->
       JS.get cfg "headers"
       = JS.VObj [("Accept", JS.VStr "application/json");
                  ("User-Agent", JS.VStr "hafas-rest-api-client")].
Proof.
  unfold createClient. destruct (new_URL P input None) as [e|u]; [discriminate|].
  intros H. injection H as <-. split; [reflexivity|].
  intros call h cfg H.
  destruct (issued_invoke _ _ _ _ _ H) as [path [query [url [_ [_ [_ ->]]]]]].
  reflexivity.
Qed.

Lemma userAgent_is_fixed_witness :
  createClient RefPlatform.platform "https://example.test"
    [("userAgent", JS.VStr "my awesome project")] = inr example_client
  /\ userAgent example_client = JS.VStr "hafas-rest-api-client"
  /\ forall (call : Call) (href : string) (cfg : JS.obj),
       issued (invoke RefPlatform.platform example_client call) = Some (href, cfg) ->
       JS.get cfg "headers"
       = JS.VObj [("Accept", JS.VStr "application/json");
                  ("User-Agent", JS.VStr "hafas-rest-api-client")].
Proof.
  split; [reflexivity|].
  exact (userAgent_is_fixed RefPlatform.platform "https://example.test"
           [("userAgent", JS.VStr "my awesome project")] example_client eq_refl).
Defined.

(** ** The options of a request *)

Lemma cfg_headers (c : Client) (url : URL) (query opt : JS.obj) :
  JS.lookup "headers" (request_cfg c url query opt)
  = Some (JS.VObj (request_headers c opt)).
Proof. unfold request_cfg. now rewrite JSFacts.lookup_assign. Qed.

Lemma cfg_option (c : Client) (url : URL) (query opt : JS.obj) (k : string) :
  k <> "headers" ->
  JS.lookup k (request_cfg c url query opt) =
  match JS.lookup k (rev opt) with
  | Some v => Some v
  | None =>
      JS.lookup k [("mode", JS.VStr "cors"); ("redirect", JS.VStr "follow");
                   ("searchParams", JS.VStr (request_searchParams url query))]
  end.
Proof.
  intros N. unfold request_cfg. rewrite JSFacts.lookup_assign.
  cbn [rev app JS.lookup]. apply String.eqb_neq in N.
  rewrite String.eqb_sym in N. rewrite N.
  rewrite JSFacts.lookup_assign. reflexivity.
Qed.

(** C6. The configuration [request] hands to [ky.get] starts from
    [mode: 'cors'], [redirect: 'follow'] and the two headers Accept and
    User-Agent. An option of the caller other than [headers] replaces the
    default of its key with the caller's value as it is; the caller's
    headers are laid over the two default headers key by key, a default
    staying where the caller has no header of that name. *)
Theorem request_options_layer (c : Client) (url : URL) (query opt : JS.obj) :
  let cfg := request_cfg c url query opt in
  let caller := JS.spread (JS.or_else (JS.get opt "headers") (JS.VObj [])) in
  (forall (P : Platform) (path : string),
      new_URL P path (Some (endpoint c)) = inr url ->
      issued (request P c path query opt) = Some (href url, cfg))
  /\ (JS.lookup "mode" opt = None -> JS.lookup "mode" cfg = Some (JS.VStr "cors"))
  /\ (JS.lookup "redirect" opt = None ->
      JS.lookup "redirect" cfg = Some (JS.VStr "follow"))
  /\ (forall k v, k <> "headers" -> JS.lookup k (rev opt) = Some v ->
                  JS.lookup k cfg = Some v)
  /\ exists h : JS.obj,
       JS.lookup "headers" cfg = Some (JS.VObj h)
       /\ (forall k v, JS.lookup k (rev caller) = Some v -> JS.lookup k h = Some v)
       /\ (JS.lookup "Accept" caller = None ->
           JS.lookup "Accept" h = Some (JS.VStr "application/json"))
       /\ (JS.lookup "User-Agent" caller = None ->
           JS.lookup "User-Agent" h = Some (userAgent c))
       /\ (forall k, In k (JS.keys h) <->
                     k = "Accept" \/ k = "User-Agent" \/ In k (JS.keys caller)).
Proof.
  intros cfg caller.
  split; [intros P path H; apply issued_request; exact H|].
  split; [|split; [|split]].
  - intros H. unfold cfg. rewrite cfg_option by discriminate.
    now rewrite (lookup_rev_none _ _ H).
  - intros H. unfold cfg. rewrite cfg_option by discriminate.
    now rewrite (lookup_rev_none _ _ H).
  - intros k v N H. unfold cfg. rewrite (cfg_option c url query opt k N).
    now rewrite H.
  - exists (request_headers c opt). split; [apply cfg_headers|].
    unfold request_headers. fold caller.
    split; [|split; [|split]].
    + intros k v H. now rewrite JSFacts.lookup_assign, H.
    + intros H. now rewrite JSFacts.lookup_assign, (lookup_rev_none _ _ H).
    + intros H. now rewrite JSFacts.lookup_assign, (lookup_rev_none _ _ H).
    + intros k. rewrite !JSFacts.keys_assign. simpl.
      intuition (subst; auto).
Qed.

Example request_options_example :
  issued (request RefPlatform.platform example_client "/journeys" []
            [("redirect", JS.VStr "manual");
             ("headers", JS.VObj [("Accept", JS.VStr "text/html");
                                  ("X-Trace", JS.VStr "1")])])
  = Some ("https://example.test/journeys",
          [("mode", JS.VStr "cors"); ("redirect", JS.VStr "manual");
           ("searchParams", JS.VStr "");
           ("headers", JS.VObj [("Accept", JS.VStr "text/html");
                                ("User-Agent", JS.VStr "hafas-rest-api-client");
                                ("X-Trace", JS.VStr "1")])]).
Proof. reflexivity. Qed.

(** ** Invalid arguments *)

(** C7. A call with an invalid argument (a falsy id for [stop] and [trip], a
    falsy ref for [refreshJourney], a stop that is falsy or neither a string
    nor an object with a truthy id for [departures] and [arrivals]) is
    rejected with a TypeError, and no request is issued: the computation is
    settled before any call of [ky.get], on every network. *)
Theorem invalid_argument_throws (P : Platform) (c : Client) (call : Call) :
  invalid_argument call = true ->
  exists msg : string,
    invoke P c call = Reject (TypeError msg)
    /\ issued (invoke P c call) = None
    /\ forall net : string -> JS.obj -> KyResult,
         run net (invoke P c call) = ([], inl (TypeError msg)).
Proof.
  intros H.
  destruct (invoke_cases c call) as [[msg [Ht _]]|[p [q [_ [Hv _]]]]];
    [|congruence].
  exists msg. rewrite (Ht P). split; [reflexivity|]. split; reflexivity.
Qed.

Lemma invalid_argument_throws_witness :
  let rejected call :=
    invalid_argument call = true
    /\ exists msg : string,
         invoke RefPlatform.platform example_client call = Reject (TypeError msg)
         /\ issued (invoke RefPlatform.platform example_client call) = None
         /\ forall net : string -> JS.obj -> KyResult,
              run net (invoke RefPlatform.platform example_client call)
              = ([], inl (TypeError msg)) in
  rejected (call_stop (JS.VStr "") [])
  /\ rejected (call_refreshJourney (JS.VStr "") [])
  /\ rejected (call_trip (JS.VStr "") JS.VUndefined [])
  /\ rejected (call_departures JS.VUndefined [])
  /\ rejected (call_arrivals JS.VUndefined []).
Proof.
  repeat split;
    apply (invalid_argument_throws RefPlatform.platform example_client);
    reflexivity.
Defined.

Example invalid_argument_messages :
  stop RefPlatform.platform example_client (JS.VStr "") []
  = Reject (TypeError "invalid id")
  /\ refreshJourney RefPlatform.platform example_client (JS.VStr "") []
     = Reject (TypeError "invalid ref")
  /\ trip RefPlatform.platform example_client (JS.VStr "") (JS.VStr "S1") []
     = Reject (TypeError "invalid id")
  /\ departures RefPlatform.platform example_client JS.VUndefined []
     = Reject (TypeError "invalid stop")
  /\ arrivals RefPlatform.platform example_client (JS.VObj [("name", JS.VStr "X")]) []
     = Reject (TypeError "invalid stop").
Proof. repeat split. Qed.

(** ** Construction *)

(** C8. [createClient] returns a client exactly when [new URL(endpoint)]
    parses: then the client holds that endpoint; otherwise the error of
    [new URL] is thrown and there is no client whose operations could be
    called. *)
Theorem createClient_validates (P : Platform) (input : string) (opt : JS.obj) :
  match new_URL P input None with
  | inr _ =>
      exists c : Client,
        createClient P input opt = inr c /\ endpoint c = input
  | inl e =>
      createClient P input opt = inl e
      /\ forall c : Client, createClient P input opt <> inr c
  end.
Proof.
  unfold createClient. destruct (new_URL P input None) as [e|u].
  - split; [reflexivity|]. intros c H. discriminate H.
  - eexists. split; reflexivity.
Qed.

Example createClient_example :
  createClient RefPlatform.platform "https://v5.vbb.transport.rest" []
  = inr {| endpoint := "https://v5.vbb.transport.rest";
           userAgent := JS.VStr "hafas-rest-api-client" |}
  /\ createClient RefPlatform.platform "not a url" [] = inl (TypeError "Invalid URL").
Proof. split; reflexivity. Qed.

(** ** Path segments *)


Example path_segments_example :
  option_map fst (issued (stop RefPlatform.platform example_client
                            (JS.VStr "de:11000:900 003201/1?x#y") []))
  = Some "https://example.test/stops/de%3A11000%3A900%20003201%2F1%3Fx%23y"
  /\ option_map fst (issued (trip RefPlatform.platform example_client
                               (JS.VStr "1|2|3") (JS.VStr "S1") []))
     = Some "https://example.test/trips/1%7C2%7C3"
  /\ option_map fst (issued (refreshJourney RefPlatform.platform example_client
                               (JS.VNum 42) []))
     = Some "https://example.test/journeys/42".
Proof. repeat split. Qed.

(** ** Where [opt] goes *)


Example opt_goes_into_query_example :
  issued (stop RefPlatform.platform example_client (JS.VStr "900000003201")
            [("redirect", JS.VStr "manual");
             ("headers", JS.VObj [("X-Trace", JS.VStr "1")])])
  = Some ("https://example.test/stops/900000003201",
          [("mode", JS.VStr "cors"); ("redirect", JS.VStr "follow");
           ("searchParams", JS.VStr "redirect=manual&headers.X-Trace=1");
           ("headers", JS.VObj [("Accept", JS.VStr "application/json");
                                ("User-Agent", JS.VStr "hafas-rest-api-client")])])
  /\ option_map (fun p => JS.get (snd p) "searchParams")
       (issued (journeys RefPlatform.platform example_client
                  (JS.VStr "900000003201") (JS.VStr "900000024101")
                  [("results", JS.VNum 1)]))
     = Some (JS.VStr "from=900000003201&to=900000024101&results=1")
  /\ option_map (fun p => JS.get (snd p) "searchParams")
       (issued (stations RefPlatform.platform example_client (JS.VStr "alex")
                  [("query", JS.VStr "mine"); ("limit", JS.VNum 3)]))
     = Some (JS.VStr "query=alex&limit=3").
Proof. repeat split. Qed.

(** * Further properties of the client *)

(** ** One call, one settlement *)

(** X1. An operation makes at most one call of [ky.get] and never repeats
    it. Without a call it is rejected; after a call, an error thrown by
    [ky.get] rejects it with that error as the [catch] block leaves it, and a
    response settles it as the decoding of that response does: there is no
    retry and no fallback value. *)
Theorem operation_outcomes (P : Platform) (c : Client) (call : Call)
  (net : string -> JS.obj -> KyResult) :
  let out := run net (invoke P c call) in
  (length (fst out) <= 1)%nat
  /\ (fst out = [] -> exists e : Error, snd out = inl e)
  /\ (forall (input : string) (cfg : JS.obj),
        fst out = [(input, cfg)] ->
        snd out = match net input cfg with
                  | Threw err => inl (request_catch P err)
                  | Returned res => request_body res
                  end).
Proof.
  destruct (invoke_cases c call) as [[msg [Ht _]]|[p [q [Hc _]]]].
  - rewrite (Ht P). simpl. split; [lia|]. split.
    + intros _. eexists. reflexivity.
    + intros input cfg H. discriminate H.
  - rewrite (Hc P). unfold request.
    destruct (new_URL P p (Some (endpoint c))) as [e|url].
    + simpl. split; [lia|]. split.
      * intros _. eexists. reflexivity.
      * intros input cfg H. discriminate H.
    + simpl.
      destruct (net (href url) (request_cfg c url q [])) as [err|res] eqn:N.
      * simpl. split; [lia|]. split; [discriminate|].
        intros input cfg H. injection H as <- <-. now rewrite N.
      * destruct (request_body res) as [e|env] eqn:B; simpl;
          (split; [lia|]); (split; [discriminate|]);
          intros input cfg H; injection H as <- <-; now rewrite N.
Qed.

(** ** The rethrown error *)

Lemma prefix_app (a b : string) : String.prefix a (a ++ b) = true.
Proof.
  induction a as [|ch a IH]; simpl; [destruct b; reflexivity|].
  destruct (ascii_dec ch ch) as [_|N]; [exact IH|exfalso; apply N; reflexivity].
Qed.

Lemma to_string_sound (v : JS.value) (text : string) :
  JS.to_string v = Some text -> text = JS.ToString v.
Proof.
  unfold JS.to_string. destruct (JS.stringable v); [|discriminate].
  intros H. injection H as <-. reflexivity.
Qed.

Lemma prefix_refl (a : string) : String.prefix a a = true.
Proof. rewrite <- (StrFacts.append_nil_r a) at 2. apply prefix_app. Qed.

(** X2. Whatever was caught, the error rethrown keeps the caught message as
    a prefix of its own. It is either the caught error unchanged, or the
    caught error with the decoded failure body attached; and its message
    differs from the caught one only by the separator and a truthy [msg] of
    that body. *)
Theorem catch_characterised (P : Platform) (err : Error) :
  let raised := request_catch P err in
  String.prefix (message err) (message raised) = true
  /\ (raised = err
      \/ exists (res : Response) (b : JS.value),
           response err = Some res
           /\ json res = Some b
           /\ body raised = Some b
           /\ (message raised = message err
               \/ exists msg : JS.value,
                    JS.Get b "msg" = Some msg
                    /\ JS.truthy msg = true
                    /\ message raised
                       = message err ++ separator ++ JS.ToString msg)).
Proof.
  unfold request_catch.
  destruct (response err) as [res|] eqn:R;
    [|split; [apply prefix_refl|left; reflexivity]].
  destruct (Headers_get (headers res) "content-type") as [cType|];
    [|split; [apply prefix_refl|left; reflexivity]].
  destruct (cType =? "")%string;
    [split; [apply prefix_refl|left; reflexivity]|].
  destruct (parseContentType P cType) as [type|];
    [|split; [apply prefix_refl|left; reflexivity]].
  destruct (type =? "application/json")%string;
    [|split; [apply prefix_refl|left; reflexivity]].
  destruct (json res) as [b|] eqn:J;
    [|split; [apply prefix_refl|left; reflexivity]].
  destruct (JS.Get b "msg") as [msg|] eqn:G.
  - destruct (JS.truthy msg) eqn:T; cbn [message body].
    + destruct (JS.to_string msg) as [text|] eqn:S; cbn [message body].
      * apply to_string_sound in S. subst text.
        split; [apply prefix_app|]. right. exists res, b.
        repeat split; try assumption. right. exists msg.
        repeat split; assumption.
      * split; [apply prefix_refl|]. right. exists res, b.
        repeat split; try assumption. left. reflexivity.
    + split; [apply prefix_refl|]. right. exists res, b.
      repeat split; try assumption. left. reflexivity.
  - cbn [message body]. split; [apply prefix_refl|]. right. exists res, b.
    repeat split; try assumption. left. reflexivity.
Qed.

(** ** The decoded body *)

(** X3. [request] resolves on a response exactly when its body decodes to
    an object or an array; a body that decodes to anything else is refused
    by [Object.defineProperty]. The envelope it resolves with has the four
    symbols as its only symbol keys, in the order they are defined, and none
    of them can be written or configured again. *)
Theorem body_resolves_iff_object (res : Response) :
  ((exists env : Envelope, request_body res = inr env)
   <-> exists b : JS.value, json res = Some b /\ is_object b = true)
  /\ (forall b : JS.value,
        json res = Some b -> is_object b = false ->
        request_body res
        = inl (TypeError "Object.defineProperty called on non-object"))
  /\ (forall env : Envelope,
        request_body res = inr env ->
        map fst (symbols env) = [RESPONSE; HEADERS; SERVER_TIMING; CACHE]
        /\ Forall (fun p => writable (snd p) = false
                            /\ configurable (snd p) = false) (symbols env)).
Proof.
  unfold request_body, Object_defineProperty, bind.
  destruct (json res) as [b|]; simpl.
  - destruct (is_object b) eqn:O; simpl; repeat (rewrite O; simpl).
    + split; [split; [intros _; exists b; split; [reflexivity|exact O]
                     |intros _; eexists; reflexivity]|].
      split; [intros b' H O'; injection H as <-; congruence|].
      intros env H. injection H as <-. simpl.
      split; [reflexivity|repeat constructor].
    + split; [split; [intros [env H]; discriminate H
                     |intros [b' [H O']]; injection H as <-; congruence]|].
      split; [intros b' _ _; reflexivity|].
      intros env H. discriminate H.
  - split; [split; [intros [env H]; discriminate H
                   |intros [b [H _]]; discriminate H]|].
    split; [intros b H; discriminate H|].
    intros env H. discriminate H.
Qed.

(** ** Arguments and [opt] in the query mapping *)



Example opt_overrides_arguments_example :
  option_map (fun p => JS.get (snd p) "searchParams")
    (issued (locations RefPlatform.platform example_client (JS.VStr "alex")
               [("query", JS.VStr "mine"); ("results", JS.VNum 3)]))
  = Some (JS.VStr "query=mine&results=3")
  /\ option_map (fun p => JS.get (snd p) "searchParams")
       (issued (journeys RefPlatform.platform example_client
                  (JS.VStr "1") (JS.VStr "2") [("to", JS.VStr "3")]))
     = Some (JS.VStr "from=1&to=3").
Proof. split; reflexivity. Qed.

(** ** Arguments that are objects *)

(** X5. [stop], [refreshJourney] and [trip] take an object as it is: for
    an object without a [toString] field of its own (whose conversion to a
    string is therefore ['[object Object]']) the path segment is the
    encoding of that string whatever else the object holds, its [id]
    included. Only the station boards read the [id] of an object: they use
    a truthy [id] whose conversion does not throw and refuse a falsy
    one. *)
Theorem object_arguments_are_not_unwrapped (c : Client)
  (props opt : JS.obj) (lineName : JS.value) :
  JS.has "toString" props = false ->
  JS.to_string (JS.VObj props) = Some "[object Object]"
  /\ calls_request c (call_stop (JS.VObj props) opt)
       "/stops/%5Bobject%20Object%5D" opt []
  /\ calls_request c (call_refreshJourney (JS.VObj props) opt)
       "/journeys/%5Bobject%20Object%5D" opt []
  /\ calls_request c (call_trip (JS.VObj props) lineName opt)
       "/trips/%5Bobject%20Object%5D"
       (JS.assign (JS.assign [] [("lineName", lineName)]) opt) []
  /\ (forall text : string,
        JS.truthy (JS.get props "id") = true ->
        JS.to_string (JS.get props "id") = Some text ->
        calls_request c (call_departures (JS.VObj props) opt)
          ("/stops/" ++ Uri.encodeURIComponent text ++ "/departures") opt [])
  /\ (JS.truthy (JS.get props "id") = false ->
      throws c (call_departures (JS.VObj props) opt) (TypeError "invalid stop")).
Proof.
  intros H.
  split; [unfold JS.to_string; simpl; now rewrite H|].
  split; [intros P; reflexivity|]. split; [intros P; reflexivity|].
  split; [intros P; reflexivity|]. split.
  - intros text T S P. apply to_string_sound in S. subst text.
    simpl. unfold departures. rewrite stationBoard_eq. simpl. now rewrite T.
  - intros T P. simpl. unfold departures.
    rewrite stationBoard_eq. simpl. now rewrite T.
Qed.

Lemma object_arguments_are_not_unwrapped_witness :
  let props := [("type", JS.VStr "stop"); ("id", JS.VStr "900000003201")] in
  JS.has "toString" props = false
  /\ JS.to_string (JS.VObj props) = Some "[object Object]"
  /\ calls_request example_client (call_stop (JS.VObj props) [])
       "/stops/%5Bobject%20Object%5D" [] []
  /\ calls_request example_client (call_departures (JS.VObj props) [])
       "/stops/900000003201/departures" [] [].
Proof.
  destruct (object_arguments_are_not_unwrapped example_client
              [("type", JS.VStr "stop"); ("id", JS.VStr "900000003201")] []
              JS.VUndefined eq_refl) as [A [B [_ [_ [D _]]]]].
  split; [reflexivity|]. split; [exact A|]. split; [exact B|].
  exact (D "900000003201" eq_refl eq_refl).
Defined.

(** ** Paths *)

Lemma path_of_request (c : Client) (call : Call) (path : string)
  (query opt : JS.obj) :
  calls_request c call path query opt -> path_of c call = Some path.
Proof. intros H. unfold path_of. rewrite (H probe). reflexivity. Qed.

Lemma path_of_stop (c : Client) (id : JS.value) (opt : JS.obj) :
  path_of c (call_stop id opt) =
  if JS.truthy id
  then Some ("/stops/" ++ Uri.encodeURIComponent (JS.ToString id))
  else None.
Proof. unfold path_of. simpl. unfold stop. destruct (JS.truthy id); reflexivity. Qed.

Lemma path_of_refreshJourney (c : Client) (ref : JS.value) (opt : JS.obj) :
  path_of c (call_refreshJourney ref opt) =
  if JS.truthy ref
  then Some ("/journeys/" ++ Uri.encodeURIComponent (JS.ToString ref))
  else None.
Proof.
  unfold path_of. simpl. unfold refreshJourney.
  destruct (JS.truthy ref); reflexivity.
Qed.

Lemma path_of_trip (c : Client) (id lineName : JS.value) (opt : JS.obj) :
  path_of c (call_trip id lineName opt) =
  if JS.truthy id
  then Some ("/trips/" ++ Uri.encodeURIComponent (JS.ToString id))
  else None.
Proof. unfold path_of. simpl. unfold trip. destruct (JS.truthy id); reflexivity. Qed.

Lemma path_of_board (c : Client) (type : string) (stop : JS.value) (opt : JS.obj) :
  option_map fst (issued (_stationBoard probe c type stop opt)) =
  if andb (JS.truthy stop) (stop_like stop)
  then Some ("/stops/" ++ Uri.encodeURIComponent (JS.ToString (board_id stop))
               ++ "/departures")
  else None.
Proof.
  rewrite stationBoard_eq.
  destruct (andb (JS.truthy stop) (stop_like stop)); reflexivity.
Qed.

Lemma encode_inj (a b : string) :
  Uri.encodeURIComponent a = Uri.encodeURIComponent b -> a = b.
Proof.
  intros H. rewrite <- (UriFacts.decode_encode a), <- (UriFacts.decode_encode b).
  now rewrite H.
Qed.

Lemma encode_has_no_slash (s t : string) :
  Uri.encodeURIComponent s <> t ++ "/departures".
Proof.
  intros H. apply (UriFacts.encode_no_char "/" s); [reflexivity|].
  rewrite H, StrFacts.chars_app. apply in_or_app. right. left. reflexivity.
Qed.

(** X6. The path of [stop] belongs to [stop] alone, with two exceptions:
    another call of [stop] has the same path only for an id with the same
    string form, [nearby] only when that string form is ['nearby'],
    [reachableFrom] only when it is ['reachable-from'], and no other
    operation ever has it: no id turns [stop] into a station board, a
    journey or a trip request. *)
Theorem stop_path_collisions (c : Client) (id : JS.value) (opt : JS.obj)
  (call : Call) (path : string) (q q' o o' : JS.obj) :
  calls_request c (call_stop id opt) path q o ->
  calls_request c call path q' o' ->
  match call with
  | call_stop id' _ => JS.ToString id' = JS.ToString id
  | call_nearby _ _ => JS.ToString id = "nearby"
  | call_reachableFrom _ _ => JS.ToString id = "reachable-from"
  | _ => False
  end.
Proof.
  intros H H'. apply path_of_request in H. apply path_of_request in H'.
  rewrite path_of_stop in H. destruct (JS.truthy id); [|discriminate H].
  injection H as <-.
  destruct call as [query opt'|loc opt'|query opt'|loc opt'|id' opt'|stop opt'
                   |stop opt'|from to opt'|ref opt'|id' lineName opt'|bbox opt'].
  - discriminate H'.
  - unfold path_of in H'. simpl in H'. injection H' as H'.
    apply encode_inj. rewrite <- H'. reflexivity.
  - discriminate H'.
  - unfold path_of in H'. simpl in H'. injection H' as H'.
    apply encode_inj. rewrite <- H'. reflexivity.
  - rewrite path_of_stop in H'. destruct (JS.truthy id'); [|discriminate H'].
    injection H' as H'.
    apply encode_inj. exact H'.
  - unfold path_of in H'. cbn [invoke] in H'. unfold departures in H'.
    rewrite path_of_board in H'.
    destruct (andb (JS.truthy stop) (stop_like stop)); [|discriminate H'].
    injection H' as H'.
    symmetry in H'. exact (encode_has_no_slash _ _ H').
  - unfold path_of in H'. cbn [invoke] in H'. unfold arrivals in H'.
    rewrite path_of_board in H'.
    destruct (andb (JS.truthy stop) (stop_like stop)); [|discriminate H'].
    injection H' as H'.
    symmetry in H'. exact (encode_has_no_slash _ _ H').
  - discriminate H'.
  - rewrite path_of_refreshJourney in H'.
    destruct (JS.truthy ref); discriminate H'.
  - rewrite path_of_trip in H'. destruct (JS.truthy id'); discriminate H'.
  - discriminate H'.
Qed.

Lemma stop_path_collisions_witness :
  calls_request example_client (call_stop (JS.VStr "nearby") [])
    "/stops/nearby" [] []
  /\ calls_request example_client (call_nearby [] []) "/stops/nearby" [] []
  /\ JS.ToString (JS.VStr "nearby") = "nearby".
Proof.
  assert (A : calls_request example_client (call_stop (JS.VStr "nearby") [])
                "/stops/nearby" [] []) by (intros P; reflexivity).
  assert (B : calls_request example_client (call_nearby [] [])
                "/stops/nearby" [] []) by (intros P; reflexivity).
  split; [exact A|]. split; [exact B|].
  exact (stop_path_collisions example_client (JS.VStr "nearby") []
           (call_nearby [] []) "/stops/nearby" [] [] [] [] A B).
Defined.

Lemma append_length (a b : string) :
  String.length (a ++ b) = (String.length a + String.length b)%nat.
Proof. induction a as [|ch a IH]; simpl; [reflexivity|now rewrite IH]. Qed.

Lemma encode_length (s : string) :
  (String.length s <= String.length (Uri.encodeURIComponent s))%nat.
Proof.
  induction s as [|ch r IH]; simpl; [lia|].
  rewrite append_length. destruct (Uri.uri_unreserved ch); simpl; lia.
Qed.

Lemma encode_unreserved (s : string) :
  forallb Uri.uri_unreserved (Str.chars s) = true ->
  Uri.encodeURIComponent s = s.
Proof.
  induction s as [|ch r IH]; simpl; [reflexivity|].
  intros H. apply andb_prop in H as [U R]. rewrite U, (IH R). reflexivity.
Qed.

Lemma encode_fixed (s : string) :
  Uri.encodeURIComponent s = s ->
  forallb Uri.uri_unreserved (Str.chars s) = true.
Proof.
  induction s as [|ch r IH]; simpl; [reflexivity|].
  destruct (Uri.uri_unreserved ch) eqn:U; simpl; intros H.
  - injection H as H. exact (IH H).
  - exfalso. unfold Str.percent in H. simpl in H. injection H as _ H.
    pose proof (encode_length r) as L. rewrite <- H in L at 1. simpl in L. lia.
Qed.

(** X7. An id that is a non-empty string reaches the path of [stop]
    unchanged exactly when it consists of unreserved characters (letters,
    digits and [- _ . ! ~ * ' ( )]); any other character of the id is
    escaped. *)
Theorem unreserved_id_is_verbatim (c : Client) (s : string) (opt : JS.obj) :
  s <> "" ->
  (forallb Uri.uri_unreserved (Str.chars s) = true
   <-> calls_request c (call_stop (JS.VStr s) opt) ("/stops/" ++ s) opt []).
Proof.
  intros NE. apply String.eqb_neq in NE.
  assert (T : JS.truthy (JS.VStr s) = true) by (simpl; now rewrite NE).
  split.
  - intros U P. simpl. unfold stop. rewrite T. simpl.
    now rewrite (encode_unreserved s U).
  - intros H. apply path_of_request in H. rewrite path_of_stop, T in H.
    injection H as H. apply encode_fixed. exact H.
Qed.

Lemma unreserved_id_is_verbatim_witness :
  "900000003201" <> ""
  /\ (forallb Uri.uri_unreserved (Str.chars "900000003201") = true
      <-> calls_request example_client (call_stop (JS.VStr "900000003201") [])
            "/stops/900000003201" [] []).
Proof.
  assert (NE : "900000003201" <> "") by discriminate.
  split; [exact NE|].
  exact (unreserved_id_is_verbatim example_client "900000003201" [] NE).
Defined.

Lemma path_of_shape (c : Client) (call : Call) (path : string) :
  path_of c call = Some path ->
  In path ["/locations"; "/stops/nearby"; "/stations"; "/stops/reachable-from";
           "/journeys"; "/radar"]
  \/ exists s : string,
       In path ["/stops/" ++ Uri.encodeURIComponent s;
                "/stops/" ++ Uri.encodeURIComponent s ++ "/departures";
                "/journeys/" ++ Uri.encodeURIComponent s;
                "/trips/" ++ Uri.encodeURIComponent s].
Proof.
  destruct call as [query opt|loc opt|query opt|loc opt|id opt|stop opt
                   |stop opt|from to opt|ref opt|id lineName opt|bbox opt];
    intros H.
  - injection H as <-. left. simpl. tauto.
  - injection H as <-. left. simpl. tauto.
  - injection H as <-. left. simpl. tauto.
  - injection H as <-. left. simpl. tauto.
  - rewrite path_of_stop in H. destruct (JS.truthy id); [|discriminate H].
    injection H as <-. right. eexists. left. reflexivity.
  - unfold path_of in H. cbn [invoke] in H. unfold departures in H.
    rewrite path_of_board in H.
    destruct (andb (JS.truthy stop) (stop_like stop)); [|discriminate H].
    injection H as <-. right. eexists. right. left. reflexivity.
  - unfold path_of in H. cbn [invoke] in H. unfold arrivals in H.
    rewrite path_of_board in H.
    destruct (andb (JS.truthy stop) (stop_like stop)); [|discriminate H].
    injection H as <-. right. eexists. right. left. reflexivity.
  - injection H as <-. left. simpl. tauto.
  - rewrite path_of_refreshJourney in H. destruct (JS.truthy ref); [|discriminate H].
    injection H as <-. right. eexists. right. right. left. reflexivity.
  - rewrite path_of_trip in H. destruct (JS.truthy id); [|discriminate H].
    injection H as <-. right. eexists. right. right. right. left. reflexivity.
  - injection H as <-. left. simpl. tauto.
Qed.

Lemma no_mark_in_path (ch : ascii) (a s b : string) :
  segment_char ch = false ->
  ~ In ch (Str.chars a) -> ~ In ch (Str.chars b) ->
  ~ In ch (Str.chars (a ++ Uri.encodeURIComponent s ++ b)).
Proof.
  intros F Na Nb. rewrite !StrFacts.chars_app. intros I.
  apply in_app_or in I as [I|I]; [exact (Na I)|].
  apply in_app_or in I as [I|I]; [|exact (Nb I)].
  exact (UriFacts.encode_no_char ch s F I).
Qed.

(** X8. Every path an operation hands to [request] starts with a slash and
    holds neither a question mark nor a hash: no operation of the client
    embeds a query string or a fragment in its path, whatever the
    identifier. *)
Theorem operation_paths_carry_no_query (c : Client) (call : Call)
  (path : string) (query opt : JS.obj) :
  calls_request c call path query opt ->
  String.prefix "/" path = true
  /\ ~ In "?"%char (Str.chars path)
  /\ ~ In "#"%char (Str.chars path).
Proof.
  intros H. apply path_of_request in H. apply path_of_shape in H.
  destruct H as [L|[s E]].
  - simpl in L.
    repeat (destruct L as [<-|L];
            [split; [reflexivity|split; simpl; intuition discriminate]|]).
    destruct L.
  - destruct E as [<-|[<-|[<-|[<-|[]]]]].
    + split; [reflexivity|].
      rewrite <- (StrFacts.append_nil_r (Uri.encodeURIComponent s)).
      split; [apply (no_mark_in_path "?" "/stops/" s "")
             |apply (no_mark_in_path "#" "/stops/" s "")];
        try reflexivity; simpl; intuition discriminate.
    + split; [reflexivity|].
      split; [apply (no_mark_in_path "?" "/stops/" s "/departures")
             |apply (no_mark_in_path "#" "/stops/" s "/departures")];
        try reflexivity; simpl; intuition discriminate.
    + split; [reflexivity|].
      rewrite <- (StrFacts.append_nil_r (Uri.encodeURIComponent s)).
      split; [apply (no_mark_in_path "?" "/journeys/" s "")
             |apply (no_mark_in_path "#" "/journeys/" s "")];
        try reflexivity; simpl; intuition discriminate.
    + split; [reflexivity|].
      rewrite <- (StrFacts.append_nil_r (Uri.encodeURIComponent s)).
      split; [apply (no_mark_in_path "?" "/trips/" s "")
             |apply (no_mark_in_path "#" "/trips/" s "")];
        try reflexivity; simpl; intuition discriminate.
Qed.

Lemma operation_paths_carry_no_query_witness :
  calls_request example_client (call_stop (JS.VStr "a?b#c") [])
    "/stops/a%3Fb%23c" [] []
  /\ String.prefix "/" "/stops/a%3Fb%23c" = true
  /\ ~ In "?"%char (Str.chars "/stops/a%3Fb%23c")
  /\ ~ In "#"%char (Str.chars "/stops/a%3Fb%23c").
Proof.
  assert (A : calls_request example_client (call_stop (JS.VStr "a?b#c") [])
                "/stops/a%3Fb%23c" [] []) by (intros P; reflexivity).
  split; [exact A|].
  exact (operation_paths_carry_no_query example_client
           (call_stop (JS.VStr "a?b#c") []) "/stops/a%3Fb%23c" [] [] A).
Defined.

(** ** What the guards let through *)

Lemma of_Z_not_empty (n : Z) : Str.of_Z n <> "".
Proof.
  unfold Str.of_Z. destruct n as [|p|p]; simpl; try discriminate.
  pose proof (DecimalPos.Unsigned.to_uint_nonnil p) as N.
  destruct (Pos.to_uint p); simpl; try discriminate. congruence.
Qed.

Lemma truthy_with_empty_string (v : JS.value) :
  JS.truthy v = true -> JS.ToString v = "" ->
  exists items : list JS.value, v = JS.VArr items.
Proof.
  destruct v as [| |b|n|s|props|items]; simpl; intros T E; try discriminate.
  - destruct b; discriminate.
  - exfalso. exact (of_Z_not_empty n E).
  - subst s. discriminate T.
  - exists items. reflexivity.
Qed.

Lemma encode_empty (s : string) : Uri.encodeURIComponent s = "" -> s = "".
Proof. intros H. apply encode_inj. exact H. Qed.

Lemma append_empty_l (a b : string) : a ++ b = b -> a = "".
Proof.
  intros H. apply (f_equal String.length) in H. rewrite append_length in H.
  destruct a; [reflexivity|simpl in H; lia].
Qed.

(** X9. The guards test the argument, not the path segment it becomes. An
    id that is a string, a number, a boolean or an object always gives a
    non-empty segment once it has passed the guard; the segment is empty
    only for an array whose string form is empty (such as the empty array),
    and for the station boards only for an object with such an array as
    its [id]. *)
Theorem empty_segment_needs_array (c : Client) (opt q o : JS.obj) :
  (forall id : JS.value,
      calls_request c (call_stop id opt) "/stops/" q o ->
      exists items : list JS.value, id = JS.VArr items)
  /\ (forall ref : JS.value,
        calls_request c (call_refreshJourney ref opt) "/journeys/" q o ->
        exists items : list JS.value, ref = JS.VArr items)
  /\ (forall id lineName : JS.value,
        calls_request c (call_trip id lineName opt) "/trips/" q o ->
        exists items : list JS.value, id = JS.VArr items)
  /\ (forall stop : JS.value,
        calls_request c (call_departures stop opt) "/stops//departures" q o ->
        exists (props : JS.obj) (items : list JS.value),
          stop = JS.VObj props /\ JS.get props "id" = JS.VArr items)
  /\ calls_request c (call_stop (JS.VArr []) opt) "/stops/" opt []
  /\ calls_request c (call_departures (JS.VObj [("id", JS.VArr [])]) opt)
       "/stops//departures" opt [].
Proof.
  split; [|split; [|split; [|split; [|split]]]].
  - intros id H. apply path_of_request in H. rewrite path_of_stop in H.
    destruct (JS.truthy id) eqn:T; [|discriminate H].
    injection H as H. apply encode_empty in H.
    exact (truthy_with_empty_string id T H).
  - intros ref H. apply path_of_request in H. rewrite path_of_refreshJourney in H.
    destruct (JS.truthy ref) eqn:T; [|discriminate H].
    injection H as H. apply encode_empty in H.
    exact (truthy_with_empty_string ref T H).
  - intros id lineName H. apply path_of_request in H. rewrite path_of_trip in H.
    destruct (JS.truthy id) eqn:T; [|discriminate H].
    injection H as H. apply encode_empty in H.
    exact (truthy_with_empty_string id T H).
  - intros stop H. apply path_of_request in H.
    unfold path_of in H. cbn [invoke] in H. unfold departures in H.
    rewrite path_of_board in H.
    destruct (andb (JS.truthy stop) (stop_like stop)) eqn:A; [|discriminate H].
    apply andb_prop in A as [T L].
    injection H as H. apply append_empty_l in H. apply encode_empty in H.
    destruct stop as [| |b|n|s|props|items]; try discriminate L.
    + simpl in H, T. subst s. discriminate T.
    + simpl in H, L. destruct (truthy_with_empty_string _ L H) as [items E].
      exists props, items. split; [reflexivity|exact E].
  - intros P. reflexivity.
  - intros P. reflexivity.
Qed.

(** ** Station boards take a stop or its id *)

(** X10. A station board given an object whose [id] is a non-empty string
    does what it does given that string: [departures({id: s, ...})] and
    [departures(s)] are the same computation, and so for [arrivals]. *)
Theorem board_takes_stop_or_id (P : Platform) (c : Client)
  (props opt : JS.obj) (s : string) :
  JS.lookup "id" props = Some (JS.VStr s) ->
  s <> "" ->
  departures P c (JS.VObj props) opt = departures P c (JS.VStr s) opt
  /\ arrivals P c (JS.VObj props) opt = arrivals P c (JS.VStr s) opt
  /\ issued (departures P c (JS.VObj props) opt)
     = issued (request P c ("/stops/" ++ Uri.encodeURIComponent s ++ "/departures")
                 opt []).
Proof.
  intros L NE. apply String.eqb_neq in NE.
  unfold departures, arrivals. rewrite !stationBoard_eq. simpl.
  unfold JS.get. rewrite L. simpl. rewrite NE. simpl.
  split; [reflexivity|]. split; reflexivity.
Qed.

Lemma board_takes_stop_or_id_witness :
  JS.lookup "id" [("type", JS.VStr "stop"); ("id", JS.VStr "900000003201")]
  = Some (JS.VStr "900000003201")
  /\ "900000003201" <> ""
  /\ departures RefPlatform.platform example_client
       (JS.VObj [("type", JS.VStr "stop"); ("id", JS.VStr "900000003201")]) []
     = departures RefPlatform.platform example_client (JS.VStr "900000003201") [].
Proof.
  assert (NE : "900000003201" <> "") by discriminate.
  split; [reflexivity|]. split; [exact NE|].
  exact (proj1 (board_takes_stop_or_id RefPlatform.platform example_client
                  [("type", JS.VStr "stop"); ("id", JS.VStr "900000003201")] []
                  "900000003201" eq_refl NE)).
Defined.

(** ** An omitted line name *)






(** ** From an operation to its result *)

Lemma request_body_object (res : Response) (b : JS.value) :
  json res = Some b -> is_object b = true ->
  exists env : Envelope,
    request_body res = inr env
    /\ target env = b
    /\ read env RESPONSE = Some (MResponse res)
    /\ read env HEADERS = Some (MHeaders (headers res)).
Proof.
  intros J O. unfold request_body, Object_defineProperty, bind.
  rewrite J. simpl. repeat (rewrite O; simpl).
  eexists. split; [reflexivity|]. repeat split.
Qed.

(** X12. Whatever the operation, when the call it issues is answered by a
    response whose body decodes to an object or an array, the operation
    resolves with that body, and the RESPONSE and HEADERS symbols of the
    result read that very response and its headers. *)
Theorem operation_resolves_with_body (P : Platform) (c : Client) (call : Call)
  (net : string -> JS.obj -> KyResult) (input : string) (cfg : JS.obj)
  (res : Response) (b : JS.value) :
  issued (invoke P c call) = Some (input, cfg) ->
  net input cfg = Returned res ->
  json res = Some b ->
  is_object b = true ->
  exists env : Envelope,
    run net (invoke P c call) = ([(input, cfg)], inr env)
    /\ target env = b
    /\ read env RESPONSE = Some (MResponse res)
    /\ read env HEADERS = Some (MHeaders (headers res)).
Proof.
  intros I N J O.
  destruct (issued_invoke P c call input cfg I)
    as [path [query [url [Hc [Hu [-> ->]]]]]].
  destruct (request_body_object res b J O) as [env [B [Ht [Hr Hh]]]].
  exists env. rewrite (Hc P). unfold request. rewrite Hu. simpl.
  rewrite N, B. simpl. repeat split; assumption.
Qed.

Lemma operation_resolves_with_body_witness :
  let b := JS.VObj [("id", JS.VStr "900000003201"); ("name", JS.VStr "X")] in
  let res := {| status := 200; headers := [("X-Cache", "HIT")]; json := Some b |} in
  let call := call_stop (JS.VStr "900000003201") [] in
  let cfg := [("mode", JS.VStr "cors"); ("redirect", JS.VStr "follow");
              ("searchParams", JS.VStr "");
              ("headers", JS.VObj [("Accept", JS.VStr "application/json");
                                   ("User-Agent", JS.VStr "hafas-rest-api-client")])] in
  issued (invoke RefPlatform.platform example_client call)
  = Some ("https://example.test/stops/900000003201", cfg)
  /\ always (Returned res) "https://example.test/stops/900000003201" cfg
     = Returned res
  /\ json res = Some b
  /\ is_object b = true
  /\ exists env : Envelope,
       run (always (Returned res)) (invoke RefPlatform.platform example_client call)
       = ([("https://example.test/stops/900000003201", cfg)], inr env)
       /\ target env = b
       /\ read env RESPONSE = Some (MResponse res)
       /\ read env HEADERS = Some (MHeaders (headers res)).
Proof.
  split; [reflexivity|]. split; [reflexivity|]. split; [reflexivity|].
  split; [reflexivity|].
  exact (operation_resolves_with_body RefPlatform.platform example_client
           (call_stop (JS.VStr "900000003201") [])
           (always (Returned {| status := 200; headers := [("X-Cache", "HIT")];
                                json := Some (JS.VObj [("id", JS.VStr "900000003201");
                                                       ("name", JS.VStr "X")]) |}))
           "https://example.test/stops/900000003201" _ _ _
           eq_refl eq_refl eq_refl eq_refl).
Defined.
